(** * nestjs-commons: the reusable logger module

  A shallow embedding of [reusable-winston.config.ts] (option defaulting
  and transport composition), of the [printf] template of the file
  format, and of [reusable-logger.service.ts] (the logging facade and its
  child logger), with the properties the specification states about
  them. *)

From Stdlib Require Import ZArith String Ascii List Bool Lia.
From Stdlib Require Import DecimalString DecimalFacts DecimalPos DecimalZ.
From stdpp Require Import base option gmap strings list.
Import ListNotations.

Set Warnings "-register-all".

Local Open Scope string_scope.
Local Open Scope Z_scope.
Local Open Scope list_scope.

(** ** JavaScript data *)

Module Js.

(** The values that travel through the logger.  Numbers are the integers
    (file counts, durations); an object is its own enumerable string-keyed
    properties in enumeration order. *)
Inductive JsValue : Type :=
| JUndefined
| JNull
| JBool (b : bool)
| JNum (n : Z)
| JStr (s : string)
| JArr (items : list JsValue)
| JObj (props : list (string * JsValue)).

(** ToBoolean. *)
Definition truthy (v : JsValue) : bool :=
  match v with
  | JUndefined | JNull => false
  | JBool b => b
  | JNum n => negb (n =? 0)
  | JStr s => negb (String.eqb s "")
  | JArr _ | JObj _ => true
  end.

(** [a || b] on an optional string: [undefined] and [''] are falsy. *)
Definition or_string (a : option string) (b : string) : string :=
  match a with
  | Some s => if String.eqb s "" then b else s
  | None => b
  end.

(** [a || b] on an optional number: [undefined] and [0] are falsy. *)
Definition or_number (a : option Z) (b : Z) : Z :=
  match a with
  | Some n => if n =? 0 then b else n
  | None => b
  end.

(** [a || b] on an optional boolean. *)
Definition or_bool (a : option bool) (b : bool) : bool :=
  match a with
  | Some true => true
  | _ => b
  end.

(** [a !== undefined ? a : b]. *)
Definition defined_or {A : Type} (a : option A) (b : A) : A :=
  match a with
  | Some x => x
  | None => b
  end.

(** [a || b] where both sides may be [undefined]. *)
Definition or_else (a b : option string) : option string :=
  match a with
  | Some s => if String.eqb s "" then b else Some s
  | None => b
  end.

Definition JsObject : Type := list (string * JsValue).

Definition opt_js (a : option string) : JsValue :=
  match a with
  | Some s => JStr s
  | None => JUndefined
  end.

(** *** Objects: own properties in enumeration order

    [OrdinaryOwnPropertyKeys] lists the keys that are array indices first,
    in ascending numeric order, then the other string keys in the order
    they were created. *)

Definition digit_of (c : ascii) : option N :=
  let n := N_of_ascii c in
  if ((48 <=? n) && (n <=? 57))%N then Some (n - 48)%N else None.

Fixpoint digits_value (s : string) (acc : N) : option N :=
  match s with
  | EmptyString => Some acc
  | String c s' =>
      match digit_of c with
      | Some d => digits_value s' (10 * acc + d)%N
      | None => None
      end
  end.

(** A key is an array index when it is the canonical decimal string of an
    integer below [2^32 - 1]. *)
Definition array_index (k : string) : option N :=
  match k with
  | EmptyString => None
  | String "0" EmptyString => Some 0%N
  | String "0" _ => None
  | _ =>
      match digits_value k 0 with
      | Some n => if (n <? 4294967295)%N then Some n else None
      | None => None
      end
  end.

Definition keys (o : JsObject) : list string := map fst o.

Definition has_prop (k : string) (o : JsObject) : bool :=
  existsb (fun p => String.eqb k (fst p)) o.

(** [o[k]], [None] when [o] has no such own property. *)
Fixpoint get_prop (k : string) (o : JsObject) : option JsValue :=
  match o with
  | [] => None
  | (k', v) :: o' => if String.eqb k k' then Some v else get_prop k o'
  end.

Fixpoint replace_prop (k : string) (v : JsValue) (o : JsObject) : JsObject :=
  match o with
  | [] => []
  | (k', v') :: o' =>
      if String.eqb k k' then (k', v) :: o' else (k', v') :: replace_prop k v o'
  end.

Fixpoint insert_index (n : N) (k : string) (v : JsValue) (o : JsObject) : JsObject :=
  match o with
  | [] => [(k, v)]
  | (k', v') :: o' =>
      match array_index k' with
      | Some n' =>
          if (n' <? n)%N then (k', v') :: insert_index n k v o' else (k, v) :: o
      | None => (k, v) :: o
      end
  end.

(** [o[k] = v]: an existing property keeps its place; a new one goes among
    the array indices, or last. *)
Definition set_prop (k : string) (v : JsValue) (o : JsObject) : JsObject :=
  if has_prop k o then replace_prop k v o
  else match array_index k with
       | Some n => insert_index n k v o
       | None => o ++ [(k, v)]
       end.

(** [{ ...a, ...b }]. *)
Definition spread (a b : JsObject) : JsObject :=
  fold_left (fun acc p => set_prop (fst p) (snd p) acc) b a.

(** The key of the [i]-th item of an array. *)
Definition index_key (i : nat) : string :=
  NilZero.string_of_uint (Nat.to_uint i).

Fixpoint indexed (i : nat) (items : list JsValue) : JsObject :=
  match items with
  | [] => []
  | x :: rest => (index_key i, x) :: indexed (S i) rest
  end.

Fixpoint characters (s : string) : list JsValue :=
  match s with
  | EmptyString => []
  | String c s' => JStr (String c EmptyString) :: characters s'
  end.

(** The own enumerable properties [...v] copies: those of an object, the
    items of an array, the characters of a string, nothing otherwise. *)
Definition own_props (v : JsValue) : JsObject :=
  match v with
  | JObj props => props
  | JArr items => indexed 0 items
  | JStr s => indexed 0 (characters s)
  | _ => []
  end.

(** The rest of a destructuring pattern: the properties not named in it. *)
Definition rest_props (named : list string) (o : JsObject) : JsObject :=
  List.filter (fun p => negb (existsb (String.eqb (fst p)) named)) o.

End Js.

(** ** Effects: the file system, the console, exceptions *)

Module Effects.

(** What a [throw] carries: a file-system error with its code and path, or
    another error with its name and message. *)
Inductive JsException : Type :=
| FsError (code path : string)
| OtherError (name message : string).

(** One call of [console.error]. *)
Record ConsoleLine : Type := ConsoleError {
  line_text : string;
  line_error : option JsException
}.

(** The part of the world the configuration code touches: the paths that
    exist, the paths [mkdirSync] cannot create, and what was written with
    [console.error] (latest last). *)
Record World : Type := {
  fs_existing : gset string;
  fs_denied : gset string;
  console_err : list ConsoleLine
}.

Inductive Outcome (A : Type) : Type :=
| Returned (a : A)
| Thrown (e : JsException).
Arguments Returned {A} a.
Arguments Thrown {A} e.

Definition Eff (A : Type) : Type := World -> Outcome A * World.

Definition ret {A} (a : A) : Eff A := fun w => (Returned a, w).

Definition bind {A B} (m : Eff A) (k : A -> Eff B) : Eff B :=
  fun w =>
    match m w with
    | (Returned a, w') => k a w'
    | (Thrown e, w') => (Thrown e, w')
    end.

Definition throw {A} (e : JsException) : Eff A := fun w => (Thrown e, w).

(** [try { body } catch (error) { handler(error) }]. *)
Definition try_catch {A} (body : Eff A) (handler : JsException -> Eff A) : Eff A :=
  fun w =>
    match body w with
    | (Returned a, w') => (Returned a, w')
    | (Thrown e, w') => handler e w'
    end.

#[global] Instance Eff_ret : MRet Eff := @ret.
#[global] Instance Eff_bind : MBind Eff := fun A B k m => bind m k.

(** [fs.existsSync]. *)
Definition existsSync (p : string) : Eff bool :=
  fun w => (Returned (bool_decide (p ∈ fs_existing w)), w).

(** The directories above a path, outermost first: one for each [/] of the
    path that is not its first character. Paths are read as they are
    written, one name per directory. *)
Fixpoint ancestors_from (seen rest : string) : list string :=
  match rest with
  | EmptyString => []
  | String c rest' =>
      (if Ascii.eqb c "/" && negb (String.eqb seen "") then [seen] else [])
      ++ ancestors_from (seen +:+ String c EmptyString) rest'
  end.

Definition ancestors (p : string) : list string := ancestors_from "" p.

(** The world with one more directory. *)
Definition created (p : string) (w : World) : World :=
  {| fs_existing := {[p]} ∪ fs_existing w;
     fs_denied := fs_denied w;
     console_err := console_err w |}.

(** The directories are made in turn; one that exists is passed over, and
    the first that cannot be made ends the call with the error, which names
    the path that was asked for. *)
Fixpoint mkdirs (requested : string) (dirs : list string) : Eff unit :=
  fun w =>
    match dirs with
    | [] => (Returned tt, w)
    | p :: rest =>
        if bool_decide (p ∈ fs_existing w) then mkdirs requested rest w
        else if bool_decide (p ∈ fs_denied w)
             then throw (FsError "EACCES" requested) w
             else mkdirs requested rest (created p w)
    end.

(** [fs.mkdirSync(p, { recursive: true })]: creates the missing parent
    directories and the directory, or throws; a directory that exists is
    no error. *)
Definition mkdirSync (p : string) : Eff unit :=
  mkdirs p (ancestors p ++ [p]).

(** [console.error]. *)
Definition console_error (text : string) (err : option JsException) : Eff unit :=
  fun w =>
    (Returned tt,
     {| fs_existing := fs_existing w;
        fs_denied := fs_denied w;
        console_err := console_err w ++ [ConsoleError text err] |}).

End Effects.

(** ** reusable-winston.config.ts *)

Module WinstonConfig.
Import Js Effects.

(** [ReusableLoggerOptions]: every field is optional. *)
Record ReusableLoggerOptions : Type := {
  level : option string;
  enableConsole : option bool;
  enableFile : option bool;
  logDir : option string;
  maxFiles : option Z;
  maxSize : option string;
  datePattern : option string;
  zippedArchive : option bool;
  nodeEnv : option string
}.

(** The steps a [winston.format.combine] chains. *)
Inductive FormatStep : Type :=
| FmtTimestamp (format : string)
| FmtErrors (stack : bool)
| FmtSplat
| FmtJson
| FmtSimple
| FmtColorize (all : bool)
| FmtNestLike (appName : string) (colors prettyPrint : bool)
| FmtPrintf.

Definition Format : Type := list FormatStep.

(** The result of [path.join(dir, file)], kept as its two arguments: path
    normalisation belongs to Node. *)
Inductive Path : Type :=
| path_join (dir file : string).

Definition path_file (p : Path) : string :=
  match p with path_join _ f => f end.

(** The options object given to [new winston.transports.Console]. *)
Record ConsoleOptions : Type := {
  c_level : string;
  c_format : Format;
  c_handleExceptions : bool;
  c_handleRejections : bool
}.

(** The options object given to [new winston.transports.DailyRotateFile];
    [None] is a property the literal does not set. *)
Record DailyRotateFileOptions : Type := {
  f_filename : Path;
  f_level : string;
  f_format : Format;
  f_datePattern : string;
  f_zippedArchive : bool;
  f_maxSize : string;
  f_maxFiles : Z;
  f_handleExceptions : option bool;
  f_handleRejections : option bool
}.

Inductive Transport : Type :=
| Console (o : ConsoleOptions)
| DailyRotateFile (o : DailyRotateFileOptions).

(** [winston.LoggerOptions], as returned. *)
Record LoggerOptions : Type := {
  lo_level : string;
  lo_format : Format;
  lo_transports : list Transport;
  lo_exitOnError : bool
}.

Definition dir_failed_text (logDir : string) : string :=
  "创建日志目录失败: " +:+ logDir +:+ "。文件日志将被禁用或失败。".

Definition no_dir_text : string :=
  "未指定日志目录 ('logDir')，但启用了文件日志 ('enableFile')。文件日志将被跳过。".

(** [ensureLogDirectory]. *)
Definition ensureLogDirectory (logDir : string) : Eff unit :=
  present ← existsSync logDir;
  if negb present
  then try_catch (mkdirSync logDir)
                 (fun error => console_error (dir_failed_text logDir) (Some error))
  else mret tt.

Definition fileLogFormat : Format :=
  [FmtTimestamp "YYYY-MM-DD HH:mm:ss"; FmtErrors true; FmtSplat; FmtJson; FmtPrintf].

Definition consoleFormat (isProduction : bool) : Format :=
  [FmtTimestamp (if isProduction then "YYYY-MM-DD HH:mm:ss" else "HH:mm:ss");
   FmtErrors true;
   FmtSplat]
  ++ (if isProduction then [] else [FmtColorize true])
  ++ [FmtNestLike "ReusableApp" (negb isProduction) (negb isProduction)].

(** The locals [createWinstonConfig] computes from its argument. *)
Record Resolved : Type := {
  r_logLevel : string;
  r_enableConsole : bool;
  r_enableFile : bool;
  r_logDir : string;
  r_maxFiles : Z;
  r_maxSize : string;
  r_datePattern : string;
  r_zippedArchive : bool;
  r_nodeEnv : string
}.

Definition resolve (options : ReusableLoggerOptions) : Resolved := {|
  r_logLevel := or_string (level options) "info";
  r_enableConsole := defined_or (enableConsole options) true;
  r_enableFile := or_bool (enableFile options) false;
  r_logDir := or_string (logDir options) "logs";
  r_maxFiles := or_number (maxFiles options) 10;
  r_maxSize := or_string (maxSize options) "10MB";
  r_datePattern := or_string (datePattern options) "YYYY-MM-DD";
  r_zippedArchive := defined_or (zippedArchive options) true;
  r_nodeEnv := or_string (nodeEnv options) "development"
|}.

Definition isProduction (r : Resolved) : bool :=
  String.eqb (r_nodeEnv r) "production".

(** One rotating file transport of the given tier. *)
Definition file_transport (r : Resolved) (file lvl : string) (keep : Z)
    (handle : option bool) : Transport :=
  DailyRotateFile {|
    f_filename := path_join (r_logDir r) file;
    f_level := lvl;
    f_format := fileLogFormat;
    f_datePattern := r_datePattern r;
    f_zippedArchive := r_zippedArchive r;
    f_maxSize := r_maxSize r;
    f_maxFiles := keep;
    f_handleExceptions := handle;
    f_handleRejections := handle
  |}.

Definition console_transport (r : Resolved) : Transport :=
  Console {|
    c_level := if isProduction r then "info" else r_logLevel r;
    c_format := consoleFormat (isProduction r);
    c_handleExceptions := true;
    c_handleRejections := true
  |}.

Definition wants_debug_file (r : Resolved) : bool :=
  negb (isProduction r)
  || String.eqb (r_logLevel r) "debug"
  || String.eqb (r_logLevel r) "verbose"
  || String.eqb (r_logLevel r) "silly".

(** The body of [createWinstonConfig] after the locals: the [transports]
    array is threaded through the pushes. A transport stands here for the
    options its constructor is given; the constructors themselves run in
    [Construction]. *)
Definition compose (r : Resolved) : Eff LoggerOptions :=
  let transports : list Transport := [] in
  let transports :=
    if r_enableConsole r then transports ++ [console_transport r] else transports in
  transports ←
    (if r_enableFile r then
       if negb (truthy (JStr (r_logDir r))) then
         console_error no_dir_text None;;
         mret transports
       else
         ensureLogDirectory (r_logDir r);;
         let transports :=
           transports ++ [file_transport r "error-%DATE%.log" "error" (r_maxFiles r * 2) (Some true)] in
         let transports :=
           transports ++ [file_transport r "warn-%DATE%.log" "warn" (r_maxFiles r) None] in
         let transports :=
           transports ++ [file_transport r "info-%DATE%.log" "info" (r_maxFiles r) None] in
         let transports :=
           transports ++ [file_transport r "combined-%DATE%.log" (r_logLevel r) (r_maxFiles r) None] in
         let transports :=
           if wants_debug_file r
           then transports ++ [file_transport r "debug-%DATE%.log" "debug" (r_maxFiles r) None]
           else transports in
         mret transports
     else mret transports);
  mret {|
    lo_level := r_logLevel r;
    lo_format := [FmtSplat; FmtSimple];
    lo_transports := transports;
    lo_exitOnError := false
  |}.

Definition createWinstonConfig (options : ReusableLoggerOptions) : Eff LoggerOptions :=
  compose (resolve options).

(** [nestToWinstonLogLevel], a [Record<string, string>]. *)
Definition nestToWinstonLogLevel : list (string * string) :=
  [("log", "info"); ("error", "error"); ("warn", "warn"); ("debug", "debug");
   ("verbose", "verbose")].

(** [record[key]]. *)
Fixpoint record_get (key : string) (record : list (string * string)) : option string :=
  match record with
  | [] => None
  | (k, v) :: rest => if String.eqb key k then Some v else record_get key rest
  end.

End WinstonConfig.

(** ** The sink list, as the specification describes it *)

Module SinkSpec.
Import Js Effects WinstonConfig.

Definition is_console (t : Transport) : bool :=
  match t with Console _ => true | DailyRotateFile _ => false end.

Definition is_file (t : Transport) : bool :=
  match t with Console _ => false | DailyRotateFile _ => true end.

(** The tier of a file sink is the file name it writes, [tier-%DATE%.log]. *)
Definition tier_file (tier : string) : string := tier +:+ "-%DATE%.log".

Definition is_tier (tier : string) (t : Transport) : bool :=
  match t with
  | Console _ => false
  | DailyRotateFile o => String.eqb (path_file (f_filename o)) (tier_file tier)
  end.

Definition console_sinks (ts : list Transport) : list Transport :=
  List.filter is_console ts.
Definition file_sinks (ts : list Transport) : list Transport :=
  List.filter is_file ts.

(** Console part of the described list. *)
Definition console_part (r : Resolved) : list Transport :=
  if r_enableConsole r then [console_transport r] else [].

(** The four unconditional tiers, then the debug tier. *)
Definition tier_sinks (r : Resolved) : list Transport :=
  [file_transport r (tier_file "error") "error" (2 * r_maxFiles r) (Some true);
   file_transport r (tier_file "warn") "warn" (r_maxFiles r) None;
   file_transport r (tier_file "info") "info" (r_maxFiles r) None;
   file_transport r (tier_file "combined") (r_logLevel r) (r_maxFiles r) None]
  ++ (if wants_debug_file r
      then [file_transport r (tier_file "debug") "debug" (r_maxFiles r) None]
      else []).

Definition file_part (r : Resolved) : list Transport :=
  if r_enableFile r then tier_sinks r else [].

(** The lines [console.error] received during a run that started in [w] and
    ended in [w']. *)
Definition said (w w' : World) (line : ConsoleLine) : Prop :=
  exists news, console_err w' = console_err w ++ news /\ In line news.

(** The kind of a sink (the console, or the file it writes) and its floor. *)
Definition describe (t : Transport) : string * string :=
  match t with
  | Console o => ("console", c_level o)
  | DailyRotateFile o => (path_file (f_filename o), f_level o)
  end.

(** The retained-file counts of the sinks of one tier. *)
Definition retention (tier : string) (ts : list Transport) : list Z :=
  flat_map (fun t =>
              match t with
              | DailyRotateFile o =>
                  if String.eqb (path_file (f_filename o)) (tier_file tier)
                  then [f_maxFiles o] else []
              | Console _ => []
              end) ts.

Definition no_options : ReusableLoggerOptions := {|
  level := None; enableConsole := None; enableFile := None; logDir := None;
  maxFiles := None; maxSize := None; datePattern := None; zippedArchive := None;
  nodeEnv := None
|}.

(** [{ level: 'info', enableFile: true, logDir: '/tmp/logs', nodeEnv: 'production' }]. *)
Definition production_options : ReusableLoggerOptions := {|
  level := Some "info"; enableConsole := None; enableFile := Some true;
  logDir := Some "/tmp/logs"; maxFiles := None; maxSize := None; datePattern := None;
  zippedArchive := None; nodeEnv := Some "production"
|}.

(** [{ level: 'verbose', enableFile: true, maxFiles: 7, nodeEnv: 'production' }]. *)
Definition verbose_options : ReusableLoggerOptions := {|
  level := Some "verbose"; enableConsole := Some true; enableFile := Some true;
  logDir := None; maxFiles := Some 7; maxSize := None; datePattern := None;
  zippedArchive := None; nodeEnv := Some "production"
|}.

(** [{ level: '', enableFile: true, logDir: '', maxFiles: 0, maxSize: '',
      datePattern: '', nodeEnv: '' }]. *)
Definition falsy_options : ReusableLoggerOptions := {|
  level := Some ""; enableConsole := None; enableFile := Some true;
  logDir := Some ""; maxFiles := Some 0; maxSize := Some ""; datePattern := Some "";
  zippedArchive := None; nodeEnv := Some ""
|}.

Definition empty_world : World := {|
  fs_existing := ∅; fs_denied := ∅; console_err := []
|}.

(** A world in which [/tmp/logs] is missing and cannot be created. *)
Definition readonly_world : World := {|
  fs_existing := ∅; fs_denied := {["/tmp/logs"]}; console_err := []
|}.

(** The world after the diagnostic of a failed [mkdirSync]. *)
Definition after_diagnostic (d : string) (w : World) : World :=
  {| fs_existing := fs_existing w;
     fs_denied := fs_denied w;
     console_err := console_err w ++
       [ConsoleError (dir_failed_text d) (Some (FsError "EACCES" d))] |}.

End SinkSpec.

(** ** JSON text *)

Module Json.
Import Js.

Definition dquote : ascii := "034"%char.
Definition backslash : ascii := "092"%char.

Definition is_digit (c : ascii) : bool :=
  let n := N_of_ascii c in ((48 <=? n) && (n <=? 57))%N.

Definition hex_char (n : N) : ascii :=
  if (n <? 10)%N then ascii_of_N (48 + n) else ascii_of_N (87 + n).

(** [QuoteJSONString], one character: the quote, the backslash and the
    control characters are escaped, everything else is copied. *)
Definition escape_char (c : ascii) : list ascii :=
  let n := N_of_ascii c in
  if (n =? 34)%N then [backslash; dquote]
  else if (n =? 92)%N then [backslash; backslash]
  else if (n =? 8)%N then [backslash; "b"%char]
  else if (n =? 9)%N then [backslash; "t"%char]
  else if (n =? 10)%N then [backslash; "n"%char]
  else if (n =? 12)%N then [backslash; "f"%char]
  else if (n =? 13)%N then [backslash; "r"%char]
  else if (n <? 32)%N then
    [backslash; "u"%char; "0"%char; "0"%char; hex_char (n / 16); hex_char (n mod 16)]
  else [c].

Fixpoint quote_body (s : string) : list ascii :=
  match s with
  | EmptyString => []
  | String c s' => escape_char c ++ quote_body s'
  end.

Definition quote (s : string) : list ascii :=
  dquote :: quote_body s ++ [dquote].

(** An integer, in decimal. *)
Definition number_text (n : Z) : list ascii :=
  list_ascii_of_string (NilZero.string_of_int (Z.to_int n)).

(** Pieces separated by commas. *)
Fixpoint join (pieces : list (list ascii)) : list ascii :=
  match pieces with
  | [] => []
  | [x] => x
  | x :: rest => x ++ ","%char :: join rest
  end.

(** [JSON.stringify(v)] without indentation. [None] is the [undefined] it
    returns for [undefined]; inside an array [undefined] is written [null],
    and a property whose value is [undefined] is left out. *)
Fixpoint stringify (v : JsValue) : option (list ascii) :=
  match v with
  | JUndefined => None
  | JNull => Some (list_ascii_of_string "null")
  | JBool true => Some (list_ascii_of_string "true")
  | JBool false => Some (list_ascii_of_string "false")
  | JNum n => Some (number_text n)
  | JStr s => Some (quote s)
  | JArr items =>
      Some ("["%char ::
            join (map (fun i => match stringify i with
                                | Some t => t
                                | None => list_ascii_of_string "null"
                                end) items)
            ++ ["]"%char])
  | JObj props =>
      Some ("{"%char ::
            join (flat_map (fun p => let '(k, x) := p in
                                     match stringify x with
                                     | Some t => [quote k ++ ":"%char :: t]
                                     | None => []
                                     end) props)
            ++ ["}"%char])
  end.

Definition JSON_stringify (v : JsValue) : option string :=
  option_map string_of_list_ascii (stringify v).

(** The value a JSON text denotes for the value [v] it was written from:
    [v] without its [undefined] properties and with [null] for its
    [undefined] array items, members in the order of the text. *)
Fixpoint to_json (v : JsValue) : JsValue :=
  match v with
  | JArr items =>
      JArr (map (fun i => match i with JUndefined => JNull | _ => to_json i end) items)
  | JObj props =>
      JObj (flat_map (fun p => let '(k, x) := p in
                               match x with
                               | JUndefined => []
                               | _ => [(k, to_json x)]
                               end) props)
  | _ => v
  end.

(** The properties of an object as its text gives them. *)
Definition json_props (o : JsObject) : JsObject :=
  flat_map (fun p => let '(k, x) := p in
                     match x with
                     | JUndefined => []
                     | _ => [(k, to_json x)]
                     end) o.

(** *** Reading JSON text *)

Definition hex_value (c : ascii) : option N :=
  let n := N_of_ascii c in
  if ((48 <=? n) && (n <=? 57))%N then Some (n - 48)%N
  else if ((97 <=? n) && (n <=? 102))%N then Some (n - 87)%N
  else if ((65 <=? n) && (n <=? 70))%N then Some (n - 55)%N
  else None.

(** The character a one-letter escape stands for. *)
Definition unescape (c : ascii) : option ascii :=
  let n := N_of_ascii c in
  if (n =? 34)%N then Some dquote
  else if (n =? 92)%N then Some backslash
  else if (n =? 47)%N then Some "/"%char
  else if (n =? 98)%N then Some "008"%char
  else if (n =? 116)%N then Some "009"%char
  else if (n =? 110)%N then Some "010"%char
  else if (n =? 102)%N then Some "012"%char
  else if (n =? 114)%N then Some "013"%char
  else None.

(** [\uXXXX], for the code points that fit a byte. *)
Definition unescape_hex (a b c d : ascii) : option ascii :=
  match hex_value a, hex_value b, hex_value c, hex_value d with
  | Some 0%N, Some 0%N, Some h, Some l => Some (ascii_of_N (16 * h + l))
  | _, _, _, _ => None
  end.

(** The characters of a string up to its closing quote, and what follows
    the quote. *)
Fixpoint parse_string_body (s : list ascii) : option (string * list ascii) :=
  match s with
  | [] => None
  | c :: r =>
      if Ascii.eqb c dquote then Some (EmptyString, r)
      else if Ascii.eqb c backslash then
        match r with
        | [] => None
        | e :: r' =>
            if Ascii.eqb e "u"%char then
              match r' with
              | h1 :: h2 :: h3 :: h4 :: r'' =>
                  match unescape_hex h1 h2 h3 h4 with
                  | Some ch =>
                      match parse_string_body r'' with
                      | Some (str, rest) => Some (String ch str, rest)
                      | None => None
                      end
                  | None => None
                  end
              | _ => None
              end
            else
              match unescape e with
              | Some ch =>
                  match parse_string_body r' with
                  | Some (str, rest) => Some (String ch str, rest)
                  | None => None
                  end
              | None => None
              end
        end
      else if (N_of_ascii c <? 32)%N then None
      else
        match parse_string_body r with
        | Some (str, rest) => Some (String c str, rest)
        | None => None
        end
  end.

Fixpoint span_digits (s : list ascii) : list ascii * list ascii :=
  match s with
  | [] => ([], [])
  | c :: r =>
      if is_digit c
      then let (d, rest) := span_digits r in (c :: d, rest)
      else ([], s)
  end.

(** JSON writes no zero before another digit. *)
Definition leading_zero (d : list ascii) : bool :=
  match d with
  | c :: _ :: _ => Ascii.eqb c "0"%char
  | _ => false
  end.

Definition parse_digits (s : list ascii) : option (Decimal.uint * list ascii) :=
  let (d, rest) := span_digits s in
  if leading_zero d then None
  else match NilZero.uint_of_string (string_of_list_ascii d) with
       | Some u => Some (u, rest)
       | None => None
       end.

(** An integer: an optional minus sign, then digits. *)
Definition parse_number (s : list ascii) : option (Z * list ascii) :=
  match s with
  | c :: r =>
      if Ascii.eqb c "-"%char
      then match parse_digits r with
           | Some (u, rest) => Some (Z.of_int (Decimal.Neg u), rest)
           | None => None
           end
      else match parse_digits s with
           | Some (u, rest) => Some (Z.of_int (Decimal.Pos u), rest)
           | None => None
           end
  | [] => None
  end.

(** The items of an array after the first bracket, at least one; [pv] reads
    one value and [n] bounds the number of items. *)
Fixpoint parse_items (pv : list ascii -> option (JsValue * list ascii)) (n : nat)
    (s : list ascii) : option (list JsValue * list ascii) :=
  match n with
  | O => None
  | S n' =>
      match pv s with
      | Some (v, c :: r) =>
          if Ascii.eqb c ","%char then
            match parse_items pv n' r with
            | Some (vs, rest) => Some (v :: vs, rest)
            | None => None
            end
          else if Ascii.eqb c "]"%char then Some ([v], r)
          else None
      | _ => None
      end
  end.

(** The members of an object after the first brace, at least one. *)
Fixpoint parse_members (pv : list ascii -> option (JsValue * list ascii)) (n : nat)
    (s : list ascii) : option (list (string * JsValue) * list ascii) :=
  match n with
  | O => None
  | S n' =>
      match s with
      | q :: s1 =>
          if Ascii.eqb q dquote then
            match parse_string_body s1 with
            | Some (k, colon :: s2) =>
                if Ascii.eqb colon ":"%char then
                  match pv s2 with
                  | Some (v, c :: r) =>
                      if Ascii.eqb c ","%char then
                        match parse_members pv n' r with
                        | Some (ms, rest) => Some ((k, v) :: ms, rest)
                        | None => None
                        end
                      else if Ascii.eqb c "}"%char then Some ([(k, v)], r)
                      else None
                  | _ => None
                  end
                else None
            | _ => None
            end
          else None
      | [] => None
      end
  end.

(** One value, and the text after it. [fuel] bounds the nesting and the
    number of items of an array or object. *)
Fixpoint parse_value (fuel : nat) (s : list ascii) : option (JsValue * list ascii) :=
  match fuel with
  | O => None
  | S fuel' =>
      match s with
      | [] => None
      | c :: r =>
          if Ascii.eqb c "n"%char then
            match r with
            | "u"%char :: "l"%char :: "l"%char :: rest => Some (JNull, rest)
            | _ => None
            end
          else if Ascii.eqb c "t"%char then
            match r with
            | "r"%char :: "u"%char :: "e"%char :: rest => Some (JBool true, rest)
            | _ => None
            end
          else if Ascii.eqb c "f"%char then
            match r with
            | "a"%char :: "l"%char :: "s"%char :: "e"%char :: rest => Some (JBool false, rest)
            | _ => None
            end
          else if Ascii.eqb c dquote then
            match parse_string_body r with
            | Some (str, rest) => Some (JStr str, rest)
            | None => None
            end
          else if Ascii.eqb c "["%char then
            match r with
            | [] => None
            | c' :: rest =>
                if Ascii.eqb c' "]"%char then Some (JArr [], rest)
                else
                  match parse_items (parse_value fuel') fuel' r with
                  | Some (items, rest') => Some (JArr items, rest')
                  | None => None
                  end
            end
          else if Ascii.eqb c "{"%char then
            match r with
            | [] => None
            | c' :: rest =>
                if Ascii.eqb c' "}"%char then Some (JObj [], rest)
                else
                  match parse_members (parse_value fuel') fuel' r with
                  | Some (ms, rest') => Some (JObj ms, rest')
                  | None => None
                  end
            end
          else
            match parse_number s with
            | Some (n, rest) => Some (JNum n, rest)
            | None => None
            end
      end
  end.

(** [JSON.parse] on texts without white space: the whole text is one
    value. *)
Definition JSON_parse (text : string) : option JsValue :=
  match parse_value (S (String.length text)) (list_ascii_of_string text) with
  | Some (v, []) => Some v
  | _ => None
  end.

(** *** Notions for the round trip *)

(** A number ends where the digits end. *)
Definition number_stop (rest : list ascii) : Prop :=
  match rest with
  | [] => True
  | c :: _ => is_digit c = false
  end.

(** The text of an array item, and the value read back from it. *)
Definition item_text (i : JsValue) : list ascii :=
  match stringify i with
  | Some t => t
  | None => list_ascii_of_string "null"
  end.

Definition item_json (i : JsValue) : JsValue :=
  match i with
  | JUndefined => JNull
  | _ => to_json i
  end.

(** The properties that are written: key, text of the value, value read
    back. *)
Definition written (props : JsObject) : list (string * list ascii * JsValue) :=
  flat_map (fun p => let '(k, x) := p in
                     match stringify x with
                     | Some t => [(k, t, to_json x)]
                     | None => []
                     end) props.

Definition member_text (m : string * list ascii * JsValue) : list ascii :=
  quote (fst (fst m)) ++ ":"%char :: snd (fst m).

Definition member_json (m : string * list ascii * JsValue) : string * JsValue :=
  (fst (fst m), snd m).

(** [pv] reads the text [t] as the value [j], whatever follows. *)
Definition reads (pv : list ascii -> option (JsValue * list ascii))
    (t : list ascii) (j : JsValue) : Prop :=
  forall rest, number_stop rest -> pv (t ++ rest) = Some (j, rest).

End Json.

(** ** The [printf] template of [fileLogFormat] *)

Module FileFormat.
Import Js Json.

Definition upper_char (c : ascii) : ascii :=
  let n := N_of_ascii c in
  if ((97 <=? n) && (n <=? 122))%N then ascii_of_N (n - 32) else c.

(** [toUpperCase], on the ASCII letters severity names are made of. *)
Fixpoint toUpperCase (s : string) : string :=
  match s with
  | EmptyString => EmptyString
  | String c s' => String (upper_char c) (toUpperCase s')
  end.

(** The names the template's parameter destructures. *)
Definition destructured : list string :=
  ["timestamp"; "level"; "message"; "context"; "stack"].

Definition prop (info : JsObject) (k : string) : JsValue :=
  default JUndefined (get_prop k info).

(** The function given to [winston.format.printf]: from the info object
    the preceding formats hand over to the line written. [None] is the
    [TypeError] of [level.toUpperCase()] on a [level] that is not a
    string. *)
Definition printf_template (info : JsObject) : option string :=
  let timestamp := prop info "timestamp" in
  let level := prop info "level" in
  let message := prop info "message" in
  let context := prop info "context" in
  let stack := prop info "stack" in
  let meta := rest_props destructured info in
  match level with
  | JStr level =>
      let logEntry : JsObject :=
        [("timestamp", timestamp); ("level", JStr (toUpperCase level)); ("message", message)] in
      let logEntry := if truthy context then set_prop "context" context logEntry else logEntry in
      let logEntry :=
        if truthy (JObj meta) && (0 <? length (keys meta))%nat
        then spread logEntry meta else logEntry in
      let logEntry := if truthy stack then set_prop "stack" stack logEntry else logEntry in
      JSON_stringify (JObj logEntry)
  | _ => None
  end.



End FileFormat.

(** ** reusable-logger.service.ts *)

Module LoggerService.
Import Js.

(** One call of a severity method of the Winston logger:
    [logger[level](message, meta)]. *)
Record LogCall : Type := {
  call_level : string;
  call_message : JsValue;
  call_meta : JsObject
}.

(** The injected Winston logger is a shared object: a handle, and a store
    holding, per handle, the calls received (latest last). *)
Definition WinstonLogger : Type := nat.

Definition calls_of (lg : WinstonLogger) (b : gmap nat (list LogCall)) : list LogCall :=
  default [] (b !! lg).

Definition winston_call (lg : WinstonLogger) (lvl : string) (message : JsValue)
    (meta : JsObject) (b : gmap nat (list LogCall)) : gmap nat (list LogCall) :=
  <[lg := calls_of lg b ++
          [{| call_level := lvl; call_message := message; call_meta := meta |}]]> b.

(** An [Error] instance. *)
Record JsError : Type := {
  e_name : string;
  e_message : string;
  e_stack : option string
}.

(** The [trace?: string | Error] argument: absent, a string, an [Error]
    instance, or an object that is no [Error] instance (an object literal
    with the properties of an error has the type [Error] all the same). *)
Inductive Trace : Type :=
| NoTrace
| StringTrace (s : string)
| ErrorTrace (e : JsError)
| ObjectTrace (o : JsObject).

Record ReusableLoggerService : Type := {
  logger : WinstonLogger;
  currentContext : option string
}.

Record ReusableChildLogger : Type := {
  winstonLoggerInstance : WinstonLogger;
  context : string
}.

(** [{ context: ..., meta }]. *)
Definition meta_object (ctx : JsValue) (meta : list JsValue) : JsObject :=
  [("context", ctx); ("meta", JArr meta)].

(** The trace handling shared by both [error] methods. *)
Definition with_trace (trace : Trace) (errorMeta : JsObject) : JsObject :=
  match trace with
  | ErrorTrace e => set_prop "stack" (opt_js (e_stack e)) errorMeta
  | StringTrace s =>
      if (0 <? String.length s)%nat then set_prop "trace" (JStr s) errorMeta else errorMeta
  | NoTrace => errorMeta
  | ObjectTrace _ => errorMeta
  end.

Module Service.

Definition setContext (ctx : string) (this : ReusableLoggerService) : ReusableLoggerService :=
  {| logger := logger this; currentContext := Some ctx |}.

Definition severity (lvl : string) (this : ReusableLoggerService) (message : JsValue)
    (ctx : option string) (meta : list JsValue) :=
  winston_call (logger this) lvl message
    (meta_object (opt_js (or_else ctx (currentContext this))) meta).

Definition log := severity "info".
Definition warn := severity "warn".
Definition debug := severity "debug".
Definition verbose := severity "verbose".

Definition error (this : ReusableLoggerService) (message : JsValue) (trace : Trace)
    (ctx : option string) (meta : list JsValue) :=
  let errorMeta := meta_object (opt_js (or_else ctx (currentContext this))) meta in
  let errorMeta := with_trace trace errorMeta in
  winston_call (logger this) "error" message errorMeta.

(** [performance(operation, duration, context?, meta?)], with [meta] of
    type [any]. *)
Definition performance (this : ReusableLoggerService) (operation : string) (duration : Z)
    (ctx : option string) (meta : JsValue) :=
  let perfMessage :=
    operation +:+ " 执行耗时: " +:+ string_of_list_ascii (Json.number_text duration) +:+ "ms" in
  winston_call (logger this) "debug" (JStr perfMessage)
    (spread [("context", JStr (or_string ctx "Performance"));
             ("operation", JStr operation);
             ("duration", JNum duration)]
            (own_props meta)).

(** The [level] parameter of the domain helpers. *)
Inductive DomainLevel : Type :=
| LevelInfo
| LevelDebug
| LevelWarn
| LevelError.

Definition level_name (l : DomainLevel) : string :=
  match l with
  | LevelInfo => "info"
  | LevelDebug => "debug"
  | LevelWarn => "warn"
  | LevelError => "error"
  end.

(** [mqtt(level, message, data?)]. *)
Definition mqtt (this : ReusableLoggerService) (level : DomainLevel) (message : string)
    (data : JsValue) :=
  let context := "MqttService" in
  let meta : JsObject := if truthy data then [("mqttData", data)] else [] in
  winston_call (logger this) (level_name level) (JStr message)
    (spread [("context", JStr context)] meta).

(** [redis(level, message, data?)]. *)
Definition redis (this : ReusableLoggerService) (level : DomainLevel) (message : string)
    (data : JsValue) :=
  let context := "RedisService" in
  let meta : JsObject := if truthy data then [("redisData", data)] else [] in
  winston_call (logger this) (level_name level) (JStr message)
    (spread [("context", JStr context)] meta).

(** [influxdb(level, message, data?)]. *)
Definition influxdb (this : ReusableLoggerService) (level : DomainLevel) (message : string)
    (data : JsValue) :=
  let context := "InfluxdbService" in
  let meta : JsObject := if truthy data then [("influxdbData", data)] else [] in
  winston_call (logger this) (level_name level) (JStr message)
    (spread [("context", JStr context)] meta).

(** [startup(message, meta?)]. *)
Definition startup (this : ReusableLoggerService) (message : string) (meta : JsValue) :=
  log this (JStr ("🚀 " +:+ message)) (Some "Bootstrap") [meta].

(** The [status] parameter of [connection]. *)
Inductive ConnectionStatus : Type :=
| Connected
| Disconnected
| ConnectionError.

Definition status_name (s : ConnectionStatus) : string :=
  match s with
  | Connected => "connected"
  | Disconnected => "disconnected"
  | ConnectionError => "error"
  end.

(** [connection(service, status, message?, meta?)]. *)
Definition connection (this : ReusableLoggerService) (service : string)
    (status : ConnectionStatus) (message : option string) (meta : JsValue) :=
  let emoji :=
    match status with
    | Connected => "✅"
    | Disconnected => "❌"
    | ConnectionError => "⚠️"
    end in
  let logMessage :=
    emoji +:+ " " +:+ service +:+ " " +:+ or_string message (status_name status) in
  let connectionContext := "ConnectionMonitor" in
  match status with
  | ConnectionError => error this (JStr logMessage) NoTrace (Some connectionContext) [meta]
  | Disconnected => warn this (JStr logMessage) (Some connectionContext) [meta]
  | Connected => log this (JStr logMessage) (Some connectionContext) [meta]
  end.

(** [dataProcessing(operation, count, context?, meta?)]. *)
Definition dataProcessing (this : ReusableLoggerService) (operation : string) (count : Z)
    (ctx : option string) (meta : JsValue) :=
  let message :=
    "📊 " +:+ operation +:+ ": 已处理 "
    +:+ string_of_list_ascii (Json.number_text count) +:+ " 项。" in
  debug this (JStr message) (Some (or_string ctx "DataProcessing"))
    [JObj (spread [("operation", JStr operation); ("count", JNum count)] (own_props meta))].

Definition createChildLogger (this : ReusableLoggerService) (ctx : string)
    : ReusableChildLogger :=
  {| winstonLoggerInstance := logger this; context := ctx |}.

End Service.

Module Child.

Definition severity (lvl : string) (this : ReusableChildLogger) (message : JsValue)
    (meta : list JsValue) :=
  winston_call (winstonLoggerInstance this) lvl message
    (meta_object (JStr (context this)) meta).

Definition log := severity "info".
Definition warn := severity "warn".
Definition debug := severity "debug".
Definition verbose := severity "verbose".

Definition error (this : ReusableChildLogger) (message : JsValue) (trace : Trace)
    (meta : list JsValue) :=
  let errorMeta := meta_object (JStr (context this)) meta in
  let errorMeta := with_trace trace errorMeta in
  winston_call (winstonLoggerInstance this) "error" message errorMeta.

End Child.

(** The calls a program can make on a service instance ... *)
Inductive ServiceCall : Type :=
| SSetContext (ctx : string)
| SLog (message : JsValue) (ctx : option string) (meta : list JsValue)
| SError (message : JsValue) (trace : Trace) (ctx : option string) (meta : list JsValue)
| SWarn (message : JsValue) (ctx : option string) (meta : list JsValue)
| SDebug (message : JsValue) (ctx : option string) (meta : list JsValue)
| SVerbose (message : JsValue) (ctx : option string) (meta : list JsValue).

(** ... and on a child logger: the class has these five methods only. *)
Inductive ChildCall : Type :=
| CLog (message : JsValue) (meta : list JsValue)
| CError (message : JsValue) (trace : Trace) (meta : list JsValue)
| CWarn (message : JsValue) (meta : list JsValue)
| CDebug (message : JsValue) (meta : list JsValue)
| CVerbose (message : JsValue) (meta : list JsValue).

Definition service_step (st : ReusableLoggerService * gmap nat (list LogCall))
    (c : ServiceCall) : ReusableLoggerService * gmap nat (list LogCall) :=
  let (this, b) := st in
  match c with
  | SSetContext ctx => (Service.setContext ctx this, b)
  | SLog m ctx meta => (this, Service.log this m ctx meta b)
  | SError m t ctx meta => (this, Service.error this m t ctx meta b)
  | SWarn m ctx meta => (this, Service.warn this m ctx meta b)
  | SDebug m ctx meta => (this, Service.debug this m ctx meta b)
  | SVerbose m ctx meta => (this, Service.verbose this m ctx meta b)
  end.

Definition service_run (cs : list ServiceCall)
    (st : ReusableLoggerService * gmap nat (list LogCall)) :=
  fold_left service_step cs st.

Definition child_step (this : ReusableChildLogger) (b : gmap nat (list LogCall))
    (c : ChildCall) : gmap nat (list LogCall) :=
  match c with
  | CLog m meta => Child.log this m meta b
  | CError m t meta => Child.error this m t meta b
  | CWarn m meta => Child.warn this m meta b
  | CDebug m meta => Child.debug this m meta b
  | CVerbose m meta => Child.verbose this m meta b
  end.

Definition child_run (this : ReusableChildLogger) (cs : list ChildCall)
    (b : gmap nat (list LogCall)) :=
  fold_left (child_step this) cs b.

(** The context an emitted call carries. *)
Definition call_context (c : LogCall) : option JsValue :=
  get_prop "context" (call_meta c).

(** An object with the properties of an error that is not an [Error]
    instance. *)
Definition error_like : JsObject :=
  [("name", JStr "Error"); ("message", JStr "boom");
   ("stack", JStr "Error: boom at pay (orders.js:7)")].

End LoggerService.

(** ** Notions for the further properties *)

Module Coverage.
Import Js Effects WinstonConfig Json FileFormat LoggerService.

(** The files the rotating transports write. *)
Definition filenames (ts : list Transport) : list Path :=
  flat_map (fun t => match t with
                     | DailyRotateFile o => [f_filename o]
                     | Console _ => []
                     end) ts.

Definition format_of (t : Transport) : Format :=
  match t with
  | Console o => c_format o
  | DailyRotateFile o => f_format o
  end.

(** Whether the transport was asked to handle uncaught exceptions and
    rejections; a property that is not set is off. *)
Definition handles_crashes (t : Transport) : bool :=
  match t with
  | Console o => c_handleExceptions o && c_handleRejections o
  | DailyRotateFile o =>
      default false (f_handleExceptions o) && default false (f_handleRejections o)
  end.

(** Whether a format colours its output. *)
Definition colorizes (f : Format) : bool :=
  existsb (fun step => match step with
                       | FmtColorize _ => true
                       | FmtNestLike _ colors _ => colors
                       | _ => false
                       end) f.

(** The pattern of the time stamps a format writes. *)
Definition timestamp_patterns (f : Format) : list string :=
  flat_map (fun step => match step with
                        | FmtTimestamp p => [p]
                        | _ => []
                        end) f.

(** The diagnostic [ensureLogDirectory] prints for a directory. *)
Definition dir_failed_line (d : string) : ConsoleLine :=
  ConsoleError (dir_failed_text d) (Some (FsError "EACCES" d)).

(** The NestJS name of the method a call invokes. *)
Definition service_method (c : ServiceCall) : option string :=
  match c with
  | SSetContext _ => None
  | SLog _ _ _ => Some "log"
  | SError _ _ _ _ => Some "error"
  | SWarn _ _ _ => Some "warn"
  | SDebug _ _ _ => Some "debug"
  | SVerbose _ _ _ => Some "verbose"
  end.

Definition child_method (c : ChildCall) : string :=
  match c with
  | CLog _ _ => "log"
  | CError _ _ _ => "error"
  | CWarn _ _ => "warn"
  | CDebug _ _ => "debug"
  | CVerbose _ _ => "verbose"
  end.

(** The [context] argument a call passes. *)
Definition explicit_context (c : ServiceCall) : option string :=
  match c with
  | SSetContext _ => None
  | SLog _ ctx _ | SWarn _ ctx _ | SDebug _ ctx _ | SVerbose _ ctx _ => ctx
  | SError _ _ ctx _ => ctx
  end.

Definition is_setContext (c : ServiceCall) : bool :=
  match c with
  | SSetContext _ => true
  | _ => false
  end.

(** The call on the service that passes the context explicitly. *)
Definition with_context (ctx : string) (c : ChildCall) : ServiceCall :=
  match c with
  | CLog m meta => SLog m (Some ctx) meta
  | CError m t meta => SError m t (Some ctx) meta
  | CWarn m meta => SWarn m (Some ctx) meta
  | CDebug m meta => SDebug m (Some ctx) meta
  | CVerbose m meta => SVerbose m (Some ctx) meta
  end.

(** The call a domain helper makes: the fixed context, then the payload
    under the helper's key when the payload is truthy. *)
Definition domain_entry (ctx key : string) (level : Service.DomainLevel)
    (message : string) (data : JsValue) : LogCall :=
  {| call_level := Service.level_name level;
     call_message := JStr message;
     call_meta := ("context", JStr ctx) :: (if truthy data then [(key, data)] else []) |}.

(** The level [connection] logs a status at. *)
Definition status_level (s : Service.ConnectionStatus) : string :=
  match s with
  | Service.Connected => "info"
  | Service.Disconnected => "warn"
  | Service.ConnectionError => "error"
  end.

(** [a] overridden by [b], property by property. *)
Definition overridden (a b : JsObject) (k : string) : option JsValue :=
  match get_prop k b with
  | Some v => Some v
  | None => get_prop k a
  end.

(** The field JSON text has for a property value: none for [undefined]. *)
Definition json_field (v : JsValue) : option JsValue :=
  match v with
  | JUndefined => None
  | _ => Some (to_json v)
  end.

(** The field the record has for a property of the info object. *)
Definition written_field (info : JsObject) (k : string) : option JsValue :=
  match get_prop k info with
  | Some v => json_field v
  | None => None
  end.

(** The object the template serialises, for a [level] that is the string
    [lvl]. *)
Definition log_entry (info : JsObject) (lvl : string) : JsObject :=
  let meta := rest_props destructured info in
  let logEntry : JsObject :=
    [("timestamp", prop info "timestamp"); ("level", JStr (toUpperCase lvl));
     ("message", prop info "message")] in
  let logEntry :=
    if truthy (prop info "context")
    then set_prop "context" (prop info "context") logEntry else logEntry in
  let logEntry :=
    if truthy (JObj meta) && (0 <? length (keys meta))%nat
    then spread logEntry meta else logEntry in
  if truthy (prop info "stack")
  then set_prop "stack" (prop info "stack") logEntry else logEntry.

(** Induction on a value through its items and properties. *)
Fixpoint JsValue_nested_ind (P : JsValue -> Prop)
    (Hundefined : P JUndefined) (Hnull : P JNull)
    (Hbool : forall b, P (JBool b)) (Hnum : forall n, P (JNum n))
    (Hstr : forall s, P (JStr s))
    (Harr : forall items, Forall P items -> P (JArr items))
    (Hobj : forall props, Forall (fun p => P (snd p)) props -> P (JObj props))
    (v : JsValue) {struct v} : P v :=
  match v with
  | JUndefined => Hundefined
  | JNull => Hnull
  | JBool b => Hbool b
  | JNum n => Hnum n
  | JStr s => Hstr s
  | JArr items =>
      Harr items
        ((fix go (l : list JsValue) : Forall P l :=
            match l with
            | [] => @List.Forall_nil _ P
            | x :: rest =>
                @List.Forall_cons _ P x rest
                  (JsValue_nested_ind P Hundefined Hnull Hbool Hnum Hstr Harr Hobj x)
                  (go rest)
            end) items)
  | JObj props =>
      Hobj props
        ((fix go (l : list (string * JsValue)) : Forall (fun p => P (snd p)) l :=
            match l with
            | [] => @List.Forall_nil _ (fun p => P (snd p))
            | (k, x) :: rest =>
                @List.Forall_cons _ (fun p => P (snd p)) (k, x) rest
                  (JsValue_nested_ind P Hundefined Hnull Hbool Hnum Hstr Harr Hobj x)
                  (go rest)
            end) props)
  end.

(** A character that is not a control character. *)
Definition printable (c : ascii) : bool := (32 <=? N_of_ascii c)%N.

Definition newline : string := String "010"%char EmptyString.

(** An info object whose message, context and metadata hold line breaks,
    and whose metadata has an array index among its keys. *)
Definition multiline_info : JsObject :=
  [("7", JStr ("a" +:+ newline +:+ "b"));
   ("context", JStr ("Db" +:+ newline));
   ("detail", JArr [JStr newline; JUndefined; JNum (-3)]);
   ("level", JStr "warn");
   ("message", JStr ("first" +:+ newline +:+ "second"));
   ("timestamp", JStr "2024-05-01 10:00:00")].

(** A service with the context ["Orders"] on logger 0. *)
Definition orders_service : ReusableLoggerService :=
  {| logger := 0%nat; currentContext := Some "Orders" |}.

(** [{ level: 'debug', enableFile: true, logDir: '/var/log/app' }]. *)
Definition app_options : ReusableLoggerOptions := {|
  level := Some "debug"; enableConsole := None; enableFile := Some true;
  logDir := Some "/var/log/app"; maxFiles := None; maxSize := None;
  datePattern := None; zippedArchive := None; nodeEnv := None
|}.

(** A world in which [/var/log/app] is missing and cannot be created. *)
Definition locked_world : World := {|
  fs_existing := ∅; fs_denied := {["/var/log/app"]}; console_err := []
|}.

End Coverage.

(** ** The transports under construction *)

Module Construction.
Import Js Effects WinstonConfig SinkSpec.

(** [path.dirname] of a joined path. *)
Definition path_dir (p : Path) : string :=
  match p with path_join d _ => d end.

Section Library.

(** What [new winston.transports.DailyRotateFile(options)] does to the world
    before the transport is there, or the error it throws. The constructor
    is code of winston-daily-rotate-file, not of the repository: it is a
    parameter of what follows. *)
Variable new_DailyRotateFile : DailyRotateFileOptions -> Eff unit.

(** [transports.push(new winston.transports.X(options))]: the constructor
    runs, then the transport is pushed. The constructor of the console
    transport touches neither the file system nor the console. *)
Definition push_new (t : Transport) (transports : list Transport) : Eff (list Transport) :=
  match t with
  | Console _ => mret (transports ++ [t])
  | DailyRotateFile options => new_DailyRotateFile options;; mret (transports ++ [t])
  end.

(** The body of [createWinstonConfig] after the locals, with the
    constructors run where the source has [new]. *)
Definition compose (r : Resolved) : Eff LoggerOptions :=
  let transports : list Transport := [] in
  transports ←
    (if r_enableConsole r then push_new (console_transport r) transports
     else mret transports);
  transports ←
    (if r_enableFile r then
       if negb (truthy (JStr (r_logDir r))) then
         console_error no_dir_text None;;
         mret transports
       else
         ensureLogDirectory (r_logDir r);;
         transports ←
           push_new (file_transport r "error-%DATE%.log" "error" (r_maxFiles r * 2) (Some true))
                    transports;
         transports ←
           push_new (file_transport r "warn-%DATE%.log" "warn" (r_maxFiles r) None) transports;
         transports ←
           push_new (file_transport r "info-%DATE%.log" "info" (r_maxFiles r) None) transports;
         transports ←
           push_new (file_transport r "combined-%DATE%.log" (r_logLevel r) (r_maxFiles r) None)
                    transports;
         transports ←
           (if wants_debug_file r
            then push_new (file_transport r "debug-%DATE%.log" "debug" (r_maxFiles r) None)
                          transports
            else mret transports);
         mret transports
     else mret transports);
  mret {|
    lo_level := r_logLevel r;
    lo_format := [FmtSplat; FmtSimple];
    lo_transports := transports;
    lo_exitOnError := false
  |}.

Definition createWinstonConfig (options : ReusableLoggerOptions) : Eff LoggerOptions :=
  compose (resolve options).

(** The [useFactory] that [forRootAsync] hands to [WinstonModule], from the
    options the caller's factory resolved to: the early directory check,
    then [createWinstonConfig]. An error thrown rejects the promise. *)
Definition useFactory (loggerOptions : ReusableLoggerOptions) : Eff LoggerOptions :=
  (if or_bool (enableFile loggerOptions) false
      && truthy (opt_js (logDir loggerOptions))
   then ensureLogDirectory (default "" (logDir loggerOptions))
   else mret tt);;
  createWinstonConfig loggerOptions.

(** The constructors of a list of transports, run in turn. *)
Fixpoint construct_all (ts : list Transport) : Eff unit :=
  match ts with
  | [] => mret tt
  | Console _ :: rest => construct_all rest
  | DailyRotateFile options :: rest => new_DailyRotateFile options;; construct_all rest
  end.

(** The constructor throws where the directory of its file cannot be
    made, and prints nothing then. *)
Definition fails_without_directory : Prop :=
  forall options w e w0,
    mkdirSync (path_dir (f_filename options)) w = (Thrown e, w0) ->
    exists e' w', new_DailyRotateFile options w = (Thrown e', w')
                  /\ console_err w' = console_err w.

(** The constructor never throws. *)
Definition always_returns : Prop :=
  forall options w, exists w', new_DailyRotateFile options w = (Returned tt, w').

End Library.

(** The configuration [createWinstonConfig] returns when it returns. *)
Definition configuration (r : Resolved) : LoggerOptions := {|
  lo_level := r_logLevel r;
  lo_format := [FmtSplat; FmtSimple];
  lo_transports := console_part r ++ file_part r;
  lo_exitOnError := false
|}.

(** A constructor that makes the directory of its file, with the
    directories above it, as [file-stream-rotator] does before it opens the
    file, and does nothing else that shows here. *)
Definition makes_directory (options : DailyRotateFileOptions) : Eff unit :=
  mkdirSync (path_dir (f_filename options)).

(** A constructor without effect. *)
Definition no_effect (options : DailyRotateFileOptions) : Eff unit := mret tt.

End Construction.

(** * Properties *)

(** ** Creating directories *)

Module DirectoryProofs.
Import Effects.

Lemma length_append (s t : string) :
  String.length (s +:+ t) = (String.length s + String.length t)%nat.
Proof.
  induction s as [|c s IH]; [reflexivity|].
  change (S (String.length (s +:+ t)) = S (String.length s + String.length t)).
  now rewrite IH.
Qed.

Lemma ancestors_from_shorter seen rest a :
  In a (ancestors_from seen rest) ->
  (String.length a < String.length seen + String.length rest)%nat.
Proof.
  revert seen. induction rest as [|c rest IH]; intros seen Hin; cbn in Hin; [destruct Hin|].
  apply in_app_or in Hin. destruct Hin as [Hin|Hin].
  - destruct (Ascii.eqb c "/" && negb (String.eqb seen "")); [|destruct Hin].
    destruct Hin as [<-|[]]. cbn. lia.
  - apply IH in Hin. rewrite length_append in Hin. cbn in Hin |- *. lia.
Qed.

(** A path is not one of its own ancestors. *)
Lemma not_own_ancestor p : ~ In p (ancestors p).
Proof. intros Hin. apply ancestors_from_shorter in Hin. cbn in Hin. lia. Qed.

(** What a run of [mkdirs] leaves: nothing but directories of the list that
    were not denied is added; when it returns they all exist, when it throws
    one of them is missing and denied. *)
Lemma mkdirs_spec req ps : forall w,
  exists out w',
    mkdirs req ps w = (out, w')
    /\ fs_denied w' = fs_denied w
    /\ console_err w' = console_err w
    /\ fs_existing w ⊆ fs_existing w'
    /\ (forall x, x ∈ fs_existing w' ->
                  x ∈ fs_existing w \/ (In x ps /\ x ∉ fs_denied w))
    /\ match out with
       | Returned _ => forall p, In p ps -> p ∈ fs_existing w'
       | Thrown e =>
           e = FsError "EACCES" req
           /\ exists p, In p ps /\ p ∈ fs_denied w /\ p ∉ fs_existing w'
       end.
Proof.
  induction ps as [|p rest IH]; intros w; cbn [mkdirs].
  - exists (Returned tt), w. repeat split; auto. intros p [].
  - destruct (decide (p ∈ fs_existing w)) as [Hin|Hout].
    + rewrite bool_decide_eq_true_2 by assumption.
      destruct (IH w) as (out & w' & E & Hd & Hc & Hsub & Hnew & Hout).
      exists out, w'. repeat (split; [assumption|]). split.
      * intros x Hx. destruct (Hnew x Hx) as [?|[? ?]]; [left|right; split; [right|]]; assumption.
      * destruct out as [[]|e].
        -- intros q [<-|Hq]; [apply Hsub, Hin|apply Hout, Hq].
        -- destruct Hout as (-> & q & Hq & Hqd & Hqe). split; [reflexivity|].
           exists q. split; [right|]; auto.
    + rewrite bool_decide_eq_false_2 by assumption.
      destruct (decide (p ∈ fs_denied w)) as [Hd|Hd].
      * rewrite bool_decide_eq_true_2 by assumption.
        exists (Thrown (FsError "EACCES" req)), w. repeat split; auto.
        exists p. split; [left; reflexivity|]. auto.
      * rewrite bool_decide_eq_false_2 by assumption.
        destruct (IH (created p w)) as (out & w' & E & Hd' & Hc & Hsub & Hnew & Hout').
        cbn [created fs_denied console_err fs_existing] in Hd', Hc, Hsub, Hnew, Hout'.
        exists out, w'. repeat (split; [assumption|]).
        split; [intros x Hx; apply Hsub, elem_of_union_r, Hx|]. split.
        -- intros x Hx. destruct (Hnew x Hx) as [Hx'|[? ?]].
           ++ apply elem_of_union in Hx'. destruct Hx' as [Hx'|Hx']; [|left; assumption].
              apply elem_of_singleton in Hx'. subst x. right. split; [left; reflexivity|assumption].
           ++ right. split; [right|]; assumption.
        -- destruct out as [[]|e].
           ++ intros q [<-|Hq]; [|apply Hout', Hq].
              apply Hsub, elem_of_union_l, elem_of_singleton. reflexivity.
           ++ destruct Hout' as (-> & q & Hq & Hqd & Hqe). split; [reflexivity|].
              exists q. split; [right|]; auto.
Qed.

(** A call that failed fails again, and changes nothing, in any world with
    the file system it left. *)
Lemma mkdirs_fails_again req ps : forall w e w' w2,
  mkdirs req ps w = (Thrown e, w') ->
  fs_existing w2 = fs_existing w' -> fs_denied w2 = fs_denied w' ->
  mkdirs req ps w2 = (Thrown e, w2).
Proof.
  induction ps as [|p rest IH]; intros w e w' w2 Hrun He Hd; cbn [mkdirs] in Hrun |- *;
    [discriminate|].
  destruct (decide (p ∈ fs_existing w)) as [Hin|Hout].
  - rewrite bool_decide_eq_true_2 in Hrun by assumption.
    destruct (mkdirs_spec req rest w) as (out & w0 & E & _ & _ & Hsub & _).
    rewrite Hrun in E. injection E as <- <-.
    rewrite bool_decide_eq_true_2 by (rewrite He; apply Hsub, Hin).
    eapply IH; eauto.
  - rewrite bool_decide_eq_false_2 in Hrun by assumption.
    destruct (decide (p ∈ fs_denied w)) as [Hden|Hden].
    + rewrite bool_decide_eq_true_2 in Hrun by assumption.
      injection Hrun as <- <-.
      rewrite bool_decide_eq_false_2 by (rewrite He; assumption).
      rewrite bool_decide_eq_true_2 by (rewrite Hd; assumption). reflexivity.
    + rewrite bool_decide_eq_false_2 in Hrun by assumption.
      destruct (mkdirs_spec req rest (created p w)) as (out & w0 & E & _ & _ & Hsub & _).
      rewrite Hrun in E. injection E as <- <-.
      rewrite bool_decide_eq_true_2
        by (rewrite He; apply Hsub, elem_of_union_l, elem_of_singleton; reflexivity).
      eapply IH; eauto.
Qed.

(** A failed call does not make the last directory of its list. *)
Lemma mkdirs_last req d pre : forall w e w',
  ~ In d pre -> d ∉ fs_existing w ->
  mkdirs req (pre ++ [d]) w = (Thrown e, w') -> d ∉ fs_existing w'.
Proof.
  induction pre as [|p rest IH]; intros w e w' Hpre Hout Hrun; cbn [mkdirs app] in Hrun.
  - rewrite bool_decide_eq_false_2 in Hrun by assumption.
    destruct (bool_decide (d ∈ fs_denied w)); [|discriminate].
    injection Hrun as _ <-. assumption.
  - assert (Hne : p <> d) by (intros ->; apply Hpre; left; reflexivity).
    assert (Hrest : ~ In d rest) by (intros H; apply Hpre; right; exact H).
    destruct (bool_decide (p ∈ fs_existing w)); [eapply IH; eauto|].
    destruct (bool_decide (p ∈ fs_denied w)).
    + injection Hrun as _ <-. assumption.
    + eapply (IH (created p w)); eauto. cbn. intros Hx.
      apply elem_of_union in Hx. destruct Hx as [Hx|Hx]; [|contradiction].
      apply elem_of_singleton in Hx. congruence.
Qed.

(** [mkdirSync]: it returns with the directory made, or throws with the
    directory still missing, and then throws again. *)
Lemma mkdirSync_spec d w :
  d ∉ fs_existing w ->
  exists out w',
    mkdirSync d w = (out, w')
    /\ fs_denied w' = fs_denied w
    /\ console_err w' = console_err w
    /\ fs_existing w ⊆ fs_existing w'
    /\ (forall x, x ∈ fs_existing w' ->
                  x ∈ fs_existing w \/ (In x (ancestors d ++ [d]) /\ x ∉ fs_denied w))
    /\ match out with
       | Returned _ => d ∈ fs_existing w' /\ d ∉ fs_denied w
       | Thrown e =>
           e = FsError "EACCES" d
           /\ (d ∉ fs_existing w')
           /\ (exists p, In p (ancestors d ++ [d]) /\ p ∈ fs_denied w /\ p ∉ fs_existing w')
           /\ forall w2, fs_existing w2 = fs_existing w' -> fs_denied w2 = fs_denied w' ->
                         mkdirSync d w2 = (Thrown e, w2)
       end.
Proof.
  intros Hmissing. unfold mkdirSync.
  destruct (mkdirs_spec d (ancestors d ++ [d]) w) as (out & w' & E & Hd & Hc & Hsub & Hnew & Hout).
  exists out, w'. repeat (split; [assumption|]).
  destruct out as [[]|e].
  - assert (Hin : d ∈ fs_existing w') by (apply Hout, in_or_app; right; left; reflexivity).
    split; [assumption|]. destruct (Hnew d Hin) as [?|[_ ?]]; [contradiction|assumption].
  - destruct Hout as (-> & Hp). split; [reflexivity|]. split; [|split; [assumption|]].
    + eapply mkdirs_last; eauto. apply not_own_ancestor.
    + intros w2 He2 Hd2. eapply mkdirs_fails_again; eauto.
Qed.

End DirectoryProofs.

Module ConfigProofs.
Import Js Effects WinstonConfig SinkSpec.

Lemma or_string_nonempty a b : b <> "" -> or_string a b <> "".
Proof.
  intros Hb. unfold or_string. destruct a as [s|]; [|exact Hb].
  destruct (String.eqb s "") eqn:E; [exact Hb|].
  intros ->. discriminate.
Qed.

Lemma resolve_logDir_nonempty o : r_logDir (resolve o) <> "".
Proof. apply or_string_nonempty. discriminate. Qed.

Lemma resolve_logDir_truthy o : truthy (JStr (r_logDir (resolve o))) = true.
Proof.
  simpl. destruct (String.eqb _ "") eqn:E; [|reflexivity].
  apply String.eqb_eq in E. now apply resolve_logDir_nonempty in E.
Qed.

(** [ensureLogDirectory] swallows the failure of [mkdirSync]: it always
    returns, and tells its caller nothing. *)
Lemma ensureLogDirectory_cases d w :
  ((d ∈ fs_existing w) /\ ensureLogDirectory d w = (Returned tt, w))
  \/ ((d ∉ fs_existing w) /\
      exists w',
        mkdirSync d w = (Returned tt, w')
        /\ ensureLogDirectory d w = (Returned tt, w')
        /\ d ∈ fs_existing w')
  \/ ((d ∉ fs_existing w) /\
      exists w0,
        mkdirSync d w = (Thrown (FsError "EACCES" d), w0)
        /\ ensureLogDirectory d w = (Returned tt, after_diagnostic d w0)
        /\ (d ∉ fs_existing w0)).
Proof.
  unfold ensureLogDirectory, mbind, Eff_bind, bind, existsSync, try_catch, console_error.
  destruct (decide (d ∈ fs_existing w)) as [Hin|Hout].
  - left. split; [assumption|]. rewrite bool_decide_eq_true_2 by assumption. reflexivity.
  - right. rewrite bool_decide_eq_false_2 by assumption. cbn [negb].
    destruct (DirectoryProofs.mkdirSync_spec d w Hout)
      as (out & w' & E & _ & _ & _ & _ & Hcase).
    rewrite E. destruct out as [[]|e].
    + left. split; [assumption|]. exists w'. destruct Hcase. auto.
    + right. split; [assumption|]. destruct Hcase as (-> & Hmiss & _).
      exists w'. auto.
Qed.

(** What [ensureLogDirectory] changes: it denies no further path, adds to
    the file system only the directory and its ancestors, and writes at
    most its diagnostic. *)
Lemma ensureLogDirectory_world d w :
  let w' := snd (ensureLogDirectory d w) in
  fs_denied w' = fs_denied w
  /\ fs_existing w ⊆ fs_existing w'
  /\ (forall x, x ∈ fs_existing w' ->
                x ∈ fs_existing w \/ (In x (ancestors d ++ [d]) /\ x ∉ fs_denied w))
  /\ (console_err w' = console_err w
      \/ console_err w' = console_err w ++
           [ConsoleError (dir_failed_text d) (Some (FsError "EACCES" d))]).
Proof.
  destruct (ensureLogDirectory_cases d w)
    as [[Hin H]|[(Hout & w1 & Hmk & H & _)|(Hout & w0 & Hmk & H & _)]];
    rewrite H; cbn [snd].
  - repeat split; auto.
  - destruct (DirectoryProofs.mkdirSync_spec d w Hout)
      as (out & w2 & E & Hd & Hc & Hsub & Hnew & _).
    rewrite Hmk in E. injection E as <- <-. repeat split; auto.
  - destruct (DirectoryProofs.mkdirSync_spec d w Hout)
      as (out & w2 & E & Hd & Hc & Hsub & Hnew & _).
    rewrite Hmk in E. injection E as <- <-. cbn [after_diagnostic fs_denied fs_existing console_err].
    repeat split; auto. right. rewrite Hc. reflexivity.
Qed.

(** After a failed directory check, [mkdirSync] fails again. *)
Lemma mkdirSync_after_diagnostic d w w0 :
  d ∉ fs_existing w ->
  mkdirSync d w = (Thrown (FsError "EACCES" d), w0) ->
  mkdirSync d (after_diagnostic d w0) =
    (Thrown (FsError "EACCES" d), after_diagnostic d w0).
Proof.
  intros Hout Hmk.
  destruct (DirectoryProofs.mkdirSync_spec d w Hout) as (out & w2 & E & _ & _ & _ & _ & Hcase).
  rewrite Hmk in E. injection E as <- <-. destruct Hcase as (_ & _ & _ & Hagain).
  apply Hagain; reflexivity.
Qed.

Lemma ensureLogDirectory_returns d w :
  exists w', ensureLogDirectory d w = (Returned tt, w').
Proof.
  destruct (ensureLogDirectory_cases d w)
    as [[_ H]|[(_ & w1 & _ & H & _)|(_ & w0 & _ & H & _)]];
    eexists; exact H.
Qed.

(** The run of [compose] on a configuration whose directory is not empty. *)
Lemma compose_run r w :
  r_logDir r <> "" ->
  compose r w =
    (Returned {| lo_level := r_logLevel r;
                 lo_format := [FmtSplat; FmtSimple];
                 lo_transports := console_part r ++ file_part r;
                 lo_exitOnError := false |},
     if r_enableFile r then snd (ensureLogDirectory (r_logDir r) w) else w).
Proof.
  intros Hdir.
  assert (Ht : String.eqb (r_logDir r) "" = false)
    by (apply String.eqb_neq; exact Hdir).
  unfold compose, console_part, file_part, tier_sinks, tier_file.
  unfold mbind, Eff_bind, bind, mret, Eff_ret, ret. unfold truthy. rewrite Ht. cbn [negb].
  destruct (r_enableFile r).
  - destruct (ensureLogDirectory_returns (r_logDir r) w) as [w' Hw].
    rewrite (Z.mul_comm (r_maxFiles r) 2).
    destruct (r_enableConsole r), (wants_debug_file r); cbv beta iota; rewrite !Hw; reflexivity.
  - destruct (r_enableConsole r); simpl; rewrite ?app_nil_r; reflexivity.
Qed.

Lemma createWinstonConfig_run o w :
  createWinstonConfig o w =
    (Returned {| lo_level := r_logLevel (resolve o);
                 lo_format := [FmtSplat; FmtSimple];
                 lo_transports := console_part (resolve o) ++ file_part (resolve o);
                 lo_exitOnError := false |},
     if r_enableFile (resolve o)
     then snd (ensureLogDirectory (r_logDir (resolve o)) w) else w).
Proof. apply compose_run, resolve_logDir_nonempty. Qed.

Lemma enableFile_resolved o : enableFile o = Some true -> r_enableFile (resolve o) = true.
Proof. intros H. unfold resolve; simpl. rewrite H. reflexivity. Qed.

Lemma file_sinks_composed r :
  file_sinks (console_part r ++ file_part r) = file_part r.
Proof.
  unfold file_sinks, console_part, file_part, tier_sinks.
  destruct (r_enableConsole r), (r_enableFile r), (wants_debug_file r); reflexivity.
Qed.

Lemma console_sinks_composed r :
  console_sinks (console_part r ++ file_part r) = console_part r.
Proof.
  unfold console_sinks, console_part, file_part, tier_sinks.
  destruct (r_enableConsole r), (r_enableFile r), (wants_debug_file r); reflexivity.
Qed.

Lemma tier_sinks_length r : (4 <= length (tier_sinks r))%nat.
Proof. unfold tier_sinks. destruct (wants_debug_file r); simpl; lia. Qed.

Lemma has_debug_composed r :
  existsb (is_tier "debug") (console_part r ++ file_part r)
  = r_enableFile r && wants_debug_file r.
Proof.
  unfold console_part, file_part, tier_sinks.
  destruct (r_enableConsole r), (r_enableFile r), (wants_debug_file r); reflexivity.
Qed.

Lemma wants_debug_file_iff r :
  wants_debug_file r = true <->
  (r_nodeEnv r <> "production" \/ r_logLevel r = "debug"
   \/ r_logLevel r = "verbose" \/ r_logLevel r = "silly").
Proof.
  unfold wants_debug_file, isProduction.
  rewrite !orb_true_iff, negb_true_iff, String.eqb_neq, !String.eqb_eq. tauto.
Qed.

(** C2. With the console enabled the composed list has exactly one console
    sink, in first place; its floor is ["info"] when the environment is
    ["production"], whatever level was configured, and the configured level
    otherwise. *)
Theorem C2_console_floor (o : ReusableLoggerOptions) (w : World) :
  r_enableConsole (resolve o) = true ->
  exists cfg w' c,
    createWinstonConfig o w = (Returned cfg, w')
    /\ head (lo_transports cfg) = Some (Console c)
    /\ console_sinks (lo_transports cfg) = [Console c]
    /\ (r_nodeEnv (resolve o) = "production" -> c_level c = "info")
    /\ (r_nodeEnv (resolve o) <> "production" -> c_level c = r_logLevel (resolve o)).
Proof.
  intros Hconsole. rewrite createWinstonConfig_run.
  eexists _, _, _. split; [reflexivity|]. cbn [lo_transports].
  rewrite console_sinks_composed. unfold console_part. rewrite Hconsole.
  split; [reflexivity|]. split; [reflexivity|].
  cbn [c_level]. unfold isProduction. split.
  - intros ->. reflexivity.
  - intros Hne. apply String.eqb_neq in Hne. rewrite Hne. reflexivity.
Qed.

Lemma C2_console_floor_witness :
  exists cfg w' c,
    createWinstonConfig verbose_options empty_world = (Returned cfg, w')
    /\ head (lo_transports cfg) = Some (Console c)
    /\ console_sinks (lo_transports cfg) = [Console c]
    /\ (r_nodeEnv (resolve verbose_options) = "production" -> c_level c = "info")
    /\ (r_nodeEnv (resolve verbose_options) <> "production" ->
        c_level c = r_logLevel (resolve verbose_options)).
Proof. apply (C2_console_floor verbose_options empty_world). reflexivity. Defined.

(** C3. With file logging enabled, the debug-tier file sink is in the
    composed list exactly when the environment is not ["production"] or the
    configured level is ["debug"], ["verbose"] or ["silly"]: absent in
    production at level ["info"], present at level ["verbose"] in every
    environment. *)
Theorem C3_debug_tier_presence (o : ReusableLoggerOptions) (w : World) :
  enableFile o = Some true ->
  exists cfg w',
    createWinstonConfig o w = (Returned cfg, w')
    /\ (existsb (is_tier "debug") (lo_transports cfg) = true <->
        (r_nodeEnv (resolve o) <> "production"
         \/ r_logLevel (resolve o) = "debug"
         \/ r_logLevel (resolve o) = "verbose"
         \/ r_logLevel (resolve o) = "silly"))
    /\ (r_nodeEnv (resolve o) = "production" -> r_logLevel (resolve o) = "info" ->
        existsb (is_tier "debug") (lo_transports cfg) = false)
    /\ (r_logLevel (resolve o) = "verbose" ->
        existsb (is_tier "debug") (lo_transports cfg) = true).
Proof.
  intros Hfile. rewrite createWinstonConfig_run.
  eexists _, _. split; [reflexivity|]. cbn [lo_transports].
  rewrite has_debug_composed, (enableFile_resolved o Hfile), andb_true_l.
  split; [apply wants_debug_file_iff|]. split.
  - intros Henv Hlvl. unfold wants_debug_file, isProduction. rewrite Henv, Hlvl. reflexivity.
  - intros Hlvl. apply wants_debug_file_iff. auto.
Qed.

Lemma C3_debug_tier_presence_witness :
  exists cfg w',
    createWinstonConfig production_options empty_world = (Returned cfg, w')
    /\ (existsb (is_tier "debug") (lo_transports cfg) = true <->
        (r_nodeEnv (resolve production_options) <> "production"
         \/ r_logLevel (resolve production_options) = "debug"
         \/ r_logLevel (resolve production_options) = "verbose"
         \/ r_logLevel (resolve production_options) = "silly"))
    /\ (r_nodeEnv (resolve production_options) = "production" ->
        r_logLevel (resolve production_options) = "info" ->
        existsb (is_tier "debug") (lo_transports cfg) = false)
    /\ (r_logLevel (resolve production_options) = "verbose" ->
        existsb (is_tier "debug") (lo_transports cfg) = true).
Proof. apply (C3_debug_tier_presence production_options empty_world). reflexivity. Defined.

(** C4. With file logging enabled, the error tier retains twice the
    configured [maxFiles]; the warn, info and combined tiers, and the debug
    tier when it is composed, retain [maxFiles]. *)
Theorem C4_retention (o : ReusableLoggerOptions) (w : World) :
  enableFile o = Some true ->
  exists cfg w',
    createWinstonConfig o w = (Returned cfg, w')
    /\ retention "error" (lo_transports cfg) = [2 * r_maxFiles (resolve o)]
    /\ retention "warn" (lo_transports cfg) = [r_maxFiles (resolve o)]
    /\ retention "info" (lo_transports cfg) = [r_maxFiles (resolve o)]
    /\ retention "combined" (lo_transports cfg) = [r_maxFiles (resolve o)]
    /\ retention "debug" (lo_transports cfg) =
         (if wants_debug_file (resolve o) then [r_maxFiles (resolve o)] else []).
Proof.
  intros Hfile. rewrite createWinstonConfig_run.
  eexists _, _. split; [reflexivity|]. cbn [lo_transports].
  unfold file_part, console_part, tier_sinks. rewrite (enableFile_resolved o Hfile).
  destruct (r_enableConsole (resolve o)), (wants_debug_file (resolve o));
    repeat split; reflexivity.
Qed.

Lemma C4_retention_witness :
  exists cfg w',
    createWinstonConfig verbose_options empty_world = (Returned cfg, w')
    /\ retention "error" (lo_transports cfg) = [14]
    /\ retention "warn" (lo_transports cfg) = [7]
    /\ retention "info" (lo_transports cfg) = [7]
    /\ retention "combined" (lo_transports cfg) = [7]
    /\ retention "debug" (lo_transports cfg) = [7].
Proof. apply (C4_retention verbose_options empty_world). reflexivity. Defined.

(** C5. The composed list is: the console sink when the console is enabled;
    then, when file logging is enabled, the error, warn, info and combined
    file sinks with floors error, warn, info and the configured level, and
    the debug sink under its condition; no file sink when file logging is
    disabled. *)
Theorem C5_sink_list_shape (o : ReusableLoggerOptions) (w : World) :
  exists cfg w',
    createWinstonConfig o w = (Returned cfg, w')
    /\ lo_transports cfg = console_part (resolve o) ++ file_part (resolve o)
    /\ map describe (lo_transports cfg) =
         (if r_enableConsole (resolve o)
          then [("console", if isProduction (resolve o) then "info" else r_logLevel (resolve o))]
          else [])
         ++ (if r_enableFile (resolve o)
             then [("error-%DATE%.log", "error");
                   ("warn-%DATE%.log", "warn");
                   ("info-%DATE%.log", "info");
                   ("combined-%DATE%.log", r_logLevel (resolve o))]
                  ++ (if wants_debug_file (resolve o)
                      then [("debug-%DATE%.log", "debug")] else [])
             else [])
    /\ (r_enableFile (resolve o) = false -> file_sinks (lo_transports cfg) = []).
Proof.
  rewrite createWinstonConfig_run.
  eexists _, _. split; [reflexivity|]. cbn [lo_transports].
  split; [reflexivity|]. rewrite file_sinks_composed.
  unfold file_part, console_part, tier_sinks. split.
  - destruct (r_enableConsole (resolve o)), (r_enableFile (resolve o)),
      (wants_debug_file (resolve o)); reflexivity.
  - intros ->. reflexivity.
Qed.

(** The scenario of the specification: level info, files in [/tmp/logs],
    production. *)
Example production_scenario :
  option_map (fun cfg => map describe (lo_transports cfg))
    (match createWinstonConfig production_options empty_world with
     | (Returned cfg, _) => Some cfg
     | (Thrown _, _) => None
     end)
  = Some [("console", "info");
          ("error-%DATE%.log", "error");
          ("warn-%DATE%.log", "warn");
          ("info-%DATE%.log", "info");
          ("combined-%DATE%.log", "info")].
Proof. rewrite createWinstonConfig_run. reflexivity. Qed.

(** No option given: the documented defaults. *)
Example default_scenario :
  resolve no_options =
    {| r_logLevel := "info"; r_enableConsole := true; r_enableFile := false;
       r_logDir := "logs"; r_maxFiles := 10; r_maxSize := "10MB";
       r_datePattern := "YYYY-MM-DD"; r_zippedArchive := true;
       r_nodeEnv := "development" |}.
Proof. reflexivity. Qed.

(** Falsy values everywhere: the defaults apply and the files go to [logs]. *)
Example falsy_scenario :
  resolve falsy_options =
    {| r_logLevel := "info"; r_enableConsole := true; r_enableFile := true;
       r_logDir := "logs"; r_maxFiles := 10; r_maxSize := "10MB";
       r_datePattern := "YYYY-MM-DD"; r_zippedArchive := true;
       r_nodeEnv := "development" |}
  /\ option_map (fun cfg => retention "error" (lo_transports cfg))
       (match createWinstonConfig falsy_options empty_world with
        | (Returned cfg, _) => Some cfg
        | (Thrown _, _) => None
        end) = Some [20].
Proof. split; [reflexivity|]. rewrite createWinstonConfig_run. reflexivity. Qed.

(** C9, as stated, fails: a field that is present but falsy is not kept.
    [maxFiles: 0] resolves to 10 and [level: ''] to ["info"]. *)
Lemma C9_present_falsy_field_replaced :
  maxFiles falsy_options = Some 0
  /\ r_maxFiles (resolve falsy_options) <> 0
  /\ level falsy_options = Some ""
  /\ r_logLevel (resolve falsy_options) <> "".
Proof. repeat split; discriminate. Qed.

(** C9, amended. Resolution gives every absent field its documented default;
    a boolean field that is present is kept, and a string or number field
    that is present and truthy (a non-empty string, a non-zero number) is
    kept; resolution is a total function, and putting the options of the
    transports together raises nothing, for every options record and in
    every state of the file system. *)
Theorem C9_defaults (o : ReusableLoggerOptions) (w : World) :
  ((level o = None -> r_logLevel (resolve o) = "info")
   /\ (enableConsole o = None -> r_enableConsole (resolve o) = true)
   /\ (enableFile o = None -> r_enableFile (resolve o) = false)
   /\ (logDir o = None -> r_logDir (resolve o) = "logs")
   /\ (maxFiles o = None -> r_maxFiles (resolve o) = 10)
   /\ (maxSize o = None -> r_maxSize (resolve o) = "10MB")
   /\ (datePattern o = None -> r_datePattern (resolve o) = "YYYY-MM-DD")
   /\ (zippedArchive o = None -> r_zippedArchive (resolve o) = true)
   /\ (nodeEnv o = None -> r_nodeEnv (resolve o) = "development"))
  /\ ((forall s, level o = Some s -> s <> "" -> r_logLevel (resolve o) = s)
      /\ (forall b, enableConsole o = Some b -> r_enableConsole (resolve o) = b)
      /\ (forall b, enableFile o = Some b -> r_enableFile (resolve o) = b)
      /\ (forall s, logDir o = Some s -> s <> "" -> r_logDir (resolve o) = s)
      /\ (forall n, maxFiles o = Some n -> n <> 0 -> r_maxFiles (resolve o) = n)
      /\ (forall s, maxSize o = Some s -> s <> "" -> r_maxSize (resolve o) = s)
      /\ (forall s, datePattern o = Some s -> s <> "" -> r_datePattern (resolve o) = s)
      /\ (forall b, zippedArchive o = Some b -> r_zippedArchive (resolve o) = b)
      /\ (forall s, nodeEnv o = Some s -> s <> "" -> r_nodeEnv (resolve o) = s))
  /\ (exists cfg w', createWinstonConfig o w = (Returned cfg, w')).
Proof.
  assert (Hs : forall a d s, a = Some s -> s <> "" -> or_string a d = s).
  { intros a d s -> Hne. unfold or_string. apply String.eqb_neq in Hne.
    rewrite Hne. reflexivity. }
  assert (Hn : forall a d n, a = Some n -> n <> 0 -> or_number a d = n).
  { intros a d n -> Hne. unfold or_number. apply Z.eqb_neq in Hne.
    rewrite Hne. reflexivity. }
  split; [|split].
  - unfold resolve; cbn. repeat split; intros ->; reflexivity.
  - unfold resolve; cbn. repeat split; eauto.
    + intros b ->. reflexivity.
    + intros [] ->; reflexivity.
    + intros b ->. reflexivity.
  - rewrite createWinstonConfig_run. eauto.
Qed.

(** C10. A falsy value given for [level], [logDir], [maxSize] or
    [datePattern] (the empty string) or for [maxFiles] (zero) is replaced by
    the default, like an absent one. The resolved directory is never empty,
    so with file logging enabled the branch that reports a missing [logDir]
    and skips the file sinks is never taken: the file tiers are composed
    whatever [logDir] was given, and the missing-directory line is not
    written. *)
Theorem C10_falsy_values_defaulted (o : ReusableLoggerOptions) (w : World) :
  ((level o = Some "" -> r_logLevel (resolve o) = "info")
   /\ (logDir o = Some "" -> r_logDir (resolve o) = "logs")
   /\ (maxSize o = Some "" -> r_maxSize (resolve o) = "10MB")
   /\ (datePattern o = Some "" -> r_datePattern (resolve o) = "YYYY-MM-DD")
   /\ (maxFiles o = Some 0 -> r_maxFiles (resolve o) = 10))
  /\ r_logDir (resolve o) <> ""
  /\ (enableFile o = Some true ->
      exists cfg w',
        createWinstonConfig o w = (Returned cfg, w')
        /\ file_sinks (lo_transports cfg) = tier_sinks (resolve o)
        /\ ~ said w w' (ConsoleError no_dir_text None)).
Proof.
  split; [|split].
  - unfold resolve; cbn. repeat split; intros ->; reflexivity.
  - apply resolve_logDir_nonempty.
  - intros Hfile. rewrite createWinstonConfig_run, (enableFile_resolved o Hfile).
    eexists _, _. split; [reflexivity|]. cbn [lo_transports].
    rewrite file_sinks_composed. unfold file_part. rewrite (enableFile_resolved o Hfile).
    split; [reflexivity|].
    intros (news & Heq & Hin).
    destruct (ensureLogDirectory_world (r_logDir (resolve o)) w) as (_ & _ & _ & [Hc|Hc]);
      cbv zeta in Hc; rewrite Hc in Heq.
    + rewrite <- (app_nil_r (console_err w)) in Heq at 1.
      apply app_inv_head in Heq. subst news. destruct Hin.
    + apply app_inv_head in Heq. subst news.
      destruct Hin as [Hin|[]]. discriminate Hin.
Qed.

(** The missing-directory branch exists in [compose]: a resolved record
    with an empty directory, which [resolve] never yields, would take it. *)
Remark compose_empty_directory_skips (r : Resolved) (w : World) :
  r_enableFile r = true -> r_logDir r = "" ->
  exists cfg w',
    compose r w = (Returned cfg, w')
    /\ file_sinks (lo_transports cfg) = []
    /\ said w w' (ConsoleError no_dir_text None).
Proof.
  intros Hfile Hdir. unfold compose, mbind, Eff_bind, bind, mret, Eff_ret, ret.
  rewrite Hfile, Hdir. cbn.
  eexists _, _. split; [reflexivity|]. split.
  - destruct (r_enableConsole r); reflexivity.
  - exists [ConsoleError no_dir_text None]. split; [reflexivity|]. left; reflexivity.
Qed.

End ConfigProofs.

Module ServiceProofs.
Import Js LoggerService.

Lemma calls_of_winston_call lg lvl m meta b :
  calls_of lg (winston_call lg lvl m meta b) =
  calls_of lg b ++ [{| call_level := lvl; call_message := m; call_meta := meta |}].
Proof. unfold calls_of at 1, winston_call. rewrite lookup_insert_eq. reflexivity. Qed.

Lemma calls_of_winston_call_other lg lg' lvl m meta b :
  lg' <> lg -> calls_of lg' (winston_call lg lvl m meta b) = calls_of lg' b.
Proof.
  intros Hne. unfold calls_of at 1, winston_call.
  rewrite lookup_insert_ne by congruence. reflexivity.
Qed.

(** The trace handling leaves the context of the meta object alone. *)
Lemma with_trace_context ctx meta trace :
  get_prop "context" (with_trace trace (meta_object ctx meta)) = Some ctx.
Proof.
  destruct trace as [|s|e|obj]; cbn [with_trace]; [reflexivity| |reflexivity..].
  destruct (0 <? String.length s)%nat; reflexivity.
Qed.

(** Every method of the child emits one call, on the child's handle, whose
    context is the child's. *)
Lemma child_step_emits this b c :
  exists call,
    child_step this b c =
      <[winstonLoggerInstance this := calls_of (winstonLoggerInstance this) b ++ [call]]> b
    /\ call_context call = Some (JStr (context this)).
Proof.
  destruct c; eexists; (split; [reflexivity|]); unfold call_context; cbn [call_meta];
    try reflexivity.
  apply with_trace_context.
Qed.

Lemma child_run_emits this cs : forall b,
  exists news,
    calls_of (winstonLoggerInstance this) (child_run this cs b) =
      calls_of (winstonLoggerInstance this) b ++ news
    /\ length news = length cs
    /\ Forall (fun call => call_context call = Some (JStr (context this))) news
    /\ (forall lg, lg <> winstonLoggerInstance this ->
        calls_of lg (child_run this cs b) = calls_of lg b).
Proof.
  induction cs as [|c cs IH]; intros b.
  - exists []. rewrite app_nil_r. repeat split; auto.
  - cbn [child_run fold_left].
    destruct (child_step_emits this b c) as (call & Hstep & Hctx).
    destruct (IH (child_step this b c)) as (news & Hcalls & Hlen & Hall & Hother).
    exists (call :: news). unfold child_run in *. rewrite Hcalls.
    split; [|split; [|split]].
    + rewrite Hstep. unfold calls_of at 1. rewrite lookup_insert_eq.
      change (default [] (Some ?l)) with l.
      rewrite <- List.app_assoc. reflexivity.
    + cbn [length]. rewrite Hlen. reflexivity.
    + constructor; assumption.
    + intros lg Hne. rewrite (Hother lg Hne), Hstep. unfold calls_of.
      rewrite lookup_insert_ne by congruence. reflexivity.
Qed.

Lemma service_step_logger st c : logger (fst (service_step st c)) = logger (fst st).
Proof. destruct st as [this b], c; reflexivity. Qed.

Lemma service_run_logger cs : forall st,
  logger (fst (service_run cs st)) = logger (fst st).
Proof.
  induction cs as [|c cs IH]; intros st; [reflexivity|].
  cbn [service_run fold_left]. unfold service_run in IH.
  rewrite IH. apply service_step_logger.
Qed.

(** [performance('op', 5, undefined, ['x'])]: the meta object handed to
    Winston starts with the key [0]. *)
Example performance_with_array_meta (this : ReusableLoggerService) :
  calls_of (logger this)
    (Service.performance this "op" 5 None (JArr [JStr "x"]) ∅)
  = [{| call_level := "debug";
        call_message := JStr "op 执行耗时: 5ms";
        call_meta := [("0", JStr "x"); ("context", JStr "Performance");
                      ("operation", JStr "op"); ("duration", JNum 5)] |}].
Proof. unfold Service.performance. rewrite calls_of_winston_call. reflexivity. Qed.

(** C7. A child made by [createChildLogger(X)] holds the parent's Winston
    logger and the string [X]. Whatever calls, [setContext] included, are
    made on the parent before the child is created and after, every call of
    a method of the child emits, on that shared logger, one call whose
    context is [X]; the child's methods are the five severity methods, and
    none of them changes its context. *)
Theorem C7_child_context_is_fixed
    (parent : ReusableLoggerService) (b : gmap nat (list LogCall)) (X : string)
    (before after : list ServiceCall) (calls : list ChildCall) :
  let st1 := service_run before (parent, b) in
  let child := Service.createChildLogger (fst st1) X in
  let st2 := service_run after st1 in
  let b3 := child_run child calls (snd st2) in
  winstonLoggerInstance child = logger parent
  /\ logger (fst st2) = logger parent
  /\ context child = X
  /\ exists news,
       calls_of (logger parent) b3 = calls_of (logger parent) (snd st2) ++ news
       /\ length news = length calls
       /\ Forall (fun call => call_context call = Some (JStr X)) news.
Proof.
  intros st1 child st2 b3.
  assert (Hl1 : logger (fst st1) = logger parent)
    by (unfold st1; rewrite service_run_logger; reflexivity).
  assert (Hl2 : logger (fst st2) = logger parent)
    by (unfold st2; rewrite service_run_logger; exact Hl1).
  assert (Hc : winstonLoggerInstance child = logger parent) by exact Hl1.
  split; [exact Hc|]. split; [exact Hl2|]. split; [reflexivity|].
  destruct (child_run_emits child calls (snd st2)) as (news & Hcalls & Hlen & Hall & _).
  exists news. rewrite <- Hc. auto.
Qed.

(** C8, as stated, fails: an error-like object that is no [Error] instance
    exposes a stack text, and the emitted call carries neither [stack] nor
    [trace]. *)
Lemma C8_error_like_object_is_dropped :
  get_prop "stack" error_like = Some (JStr "Error: boom at pay (orders.js:7)")
  /\ exists call,
       calls_of 1%nat
         (Service.error {| logger := 1%nat; currentContext := None |}
            (JStr "payment failed") (ObjectTrace error_like) None [] ∅)
       = [call]
       /\ get_prop "stack" (call_meta call) = None
       /\ get_prop "trace" (call_meta call) = None.
Proof.
  split; [reflexivity|]. unfold Service.error. rewrite calls_of_winston_call.
  eexists. split; [reflexivity|]. split; reflexivity.
Qed.

(** C8, amended. [error(message, trace, ...)] emits one call at level
    error. When [trace] is an [Error] instance, the meta object carries its
    [stack] (not its [message]) under [stack] and has no [trace]; when it is
    a non-empty string, the meta object carries it under [trace] and has no
    [stack]; when it is absent, the empty string, or an object that is no
    [Error] instance, neither is attached. The child's [error] does the
    same. *)
Theorem C8_error_trace_handling
    (this : ReusableLoggerService) (child : ReusableChildLogger)
    (b : gmap nat (list LogCall)) (message : JsValue) (trace : Trace)
    (ctx : option string) (meta : list JsValue) :
  exists call call',
    calls_of (logger this) (Service.error this message trace ctx meta b) =
      calls_of (logger this) b ++ [call]
    /\ calls_of (winstonLoggerInstance child) (Child.error child message trace meta b) =
      calls_of (winstonLoggerInstance child) b ++ [call']
    /\ call_level call = "error" /\ call_message call = message
    /\ call_level call' = "error" /\ call_message call' = message
    /\ get_prop "stack" (call_meta call') = get_prop "stack" (call_meta call)
    /\ get_prop "trace" (call_meta call') = get_prop "trace" (call_meta call)
    /\ match trace with
       | ErrorTrace e =>
           get_prop "stack" (call_meta call) = Some (opt_js (e_stack e))
           /\ get_prop "trace" (call_meta call) = None
       | StringTrace s =>
           if String.eqb s ""
           then get_prop "stack" (call_meta call) = None
                /\ get_prop "trace" (call_meta call) = None
           else get_prop "stack" (call_meta call) = None
                /\ get_prop "trace" (call_meta call) = Some (JStr s)
       | NoTrace =>
           get_prop "stack" (call_meta call) = None
           /\ get_prop "trace" (call_meta call) = None
       | ObjectTrace _ =>
           get_prop "stack" (call_meta call) = None
           /\ get_prop "trace" (call_meta call) = None
       end.
Proof.
  unfold Service.error, Child.error. rewrite !calls_of_winston_call.
  eexists _, _. do 6 (split; [reflexivity|]). cbn [call_meta].
  destruct trace as [|s|e|obj]; cbn [with_trace].
  - repeat split.
  - destruct s as [|c s]; cbn; repeat split.
  - repeat split.
  - repeat split.
Qed.

End ServiceProofs.

Module JsonProofs.
Import Js Json.

(** Reading back one escaped character. *)
Lemma parse_escape_char c tail :
  parse_string_body (escape_char c ++ tail) =
  match parse_string_body tail with
  | Some (str, rest) => Some (String c str, rest)
  | None => None
  end.
Proof. destruct c as [[] [] [] [] [] [] [] []]; reflexivity. Qed.

Lemma parse_quote_body s rest :
  parse_string_body (quote_body s ++ dquote :: rest) = Some (s, rest).
Proof.
  induction s as [|c s IH]; [reflexivity|].
  cbn [quote_body]. rewrite <- List.app_assoc, parse_escape_char, IH. reflexivity.
Qed.

Lemma parse_quote s rest :
  parse_string_body (quote_body s ++ [dquote] ++ rest) = Some (s, rest).
Proof. apply parse_quote_body. Qed.

Lemma span_digits_app d rest :
  Forall (fun c => is_digit c = true) d -> number_stop rest ->
  span_digits (d ++ rest) = (d, rest).
Proof.
  intros Hd Hstop. induction Hd as [|c d Hc _ IH].
  - destruct rest as [|c r]; [reflexivity|]. cbn in *. rewrite Hstop. reflexivity.
  - cbn. rewrite Hc, IH. reflexivity.
Qed.

Lemma uint_digits u :
  Forall (fun c => is_digit c = true) (list_ascii_of_string (NilEmpty.string_of_uint u)).
Proof. induction u; cbn; constructor; auto. Qed.

Lemma nilzero_digits u :
  Forall (fun c => is_digit c = true) (list_ascii_of_string (NilZero.string_of_uint u)).
Proof.
  destruct u; try apply uint_digits. cbn. constructor; [reflexivity|constructor].
Qed.

(** A decimal number without a needless zero in front. *)
Lemma leading_zero_text u :
  u <> Decimal.Nil -> (forall u', u = Decimal.D0 u' -> u' = Decimal.Nil) ->
  leading_zero (list_ascii_of_string (NilZero.string_of_uint u)) = false.
Proof.
  intros Hu Hz. destruct u as [|u'|u'|u'|u'|u'|u'|u'|u'|u'|u'];
    try contradiction; try (cbn; destruct (list_ascii_of_string _); reflexivity).
  rewrite (Hz u' eq_refl). reflexivity.
Qed.

Lemma parse_digits_text u rest :
  u <> Decimal.Nil -> (forall u', u = Decimal.D0 u' -> u' = Decimal.Nil) ->
  number_stop rest ->
  parse_digits (list_ascii_of_string (NilZero.string_of_uint u) ++ rest) = Some (u, rest).
Proof.
  intros Hu Hz Hstop. unfold parse_digits.
  rewrite (span_digits_app _ _ (nilzero_digits u) Hstop), (leading_zero_text u Hu Hz).
  rewrite string_of_list_ascii_of_string, NilZero.usu by exact Hu. reflexivity.
Qed.

Lemma pos_to_uint_nonnil p : Pos.to_uint p <> Decimal.Nil.
Proof. apply DecimalPos.Unsigned.to_uint_nonnil. Qed.

Lemma pos_to_uint_no_zero p u' : Pos.to_uint p = Decimal.D0 u' -> u' = Decimal.Nil.
Proof.
  intros E. exfalso.
  pose proof (DecimalPos.Unsigned.to_of (Pos.to_uint p)) as Hn.
  rewrite DecimalPos.Unsigned.of_to in Hn. cbn [N.to_uint] in Hn.
  unfold Decimal.unorm in Hn.
  destruct (Decimal.nzhead (Pos.to_uint p)) eqn:Hz;
    try (rewrite E in Hn; discriminate Hn).
  - exact (DecimalPos.Unsigned.to_uint_nonzero p Hn).
  - exact (DecimalFacts.nzhead_nonzero _ _ Hz).
Qed.

Lemma digits_head u :
  u <> Decimal.Nil ->
  exists c t, list_ascii_of_string (NilZero.string_of_uint u) = c :: t /\ is_digit c = true.
Proof.
  intros Hu. pose proof (nilzero_digits u) as Hd.
  destruct (list_ascii_of_string (NilZero.string_of_uint u)) as [|c t] eqn:E.
  - destruct u; try contradiction; discriminate E.
  - inversion Hd; subst. eauto.
Qed.

Lemma digit_not_minus c : is_digit c = true -> Ascii.eqb c "-"%char = false.
Proof. destruct c as [[] [] [] [] [] [] [] []]; intros H; try reflexivity; discriminate H. Qed.

Lemma parse_number_unsigned u rest :
  u <> Decimal.Nil -> (forall u', u = Decimal.D0 u' -> u' = Decimal.Nil) ->
  number_stop rest ->
  parse_number (list_ascii_of_string (NilZero.string_of_uint u) ++ rest)
  = Some (Z.of_int (Decimal.Pos u), rest).
Proof.
  intros Hu Hz Hstop.
  destruct (digits_head u Hu) as (c & t & E & Hc).
  pose proof (parse_digits_text u rest Hu Hz Hstop) as Hp.
  rewrite E in *. cbn [app parse_number]. rewrite (digit_not_minus c Hc).
  cbn [app] in Hp. rewrite Hp. reflexivity.
Qed.

Lemma parse_number_text n rest :
  number_stop rest -> parse_number (number_text n ++ rest) = Some (n, rest).
Proof.
  intros Hstop. unfold number_text.
  rewrite <- (DecimalZ.of_to n) at 2.
  destruct n as [|p|p]; cbn [Z.to_int NilZero.string_of_int].
  - apply parse_number_unsigned; [discriminate| |exact Hstop].
    intros u' [= <-]. reflexivity.
  - apply parse_number_unsigned;
      [apply pos_to_uint_nonnil|apply pos_to_uint_no_zero|exact Hstop].
  - cbn [list_ascii_of_string app parse_number]. rewrite Ascii.eqb_refl.
    rewrite (parse_digits_text _ rest (pos_to_uint_nonnil p) (pos_to_uint_no_zero p) Hstop).
    reflexivity.
Qed.

(** Lists of comma-separated pieces. *)
Lemma join_cons x y l : join (x :: y :: l) = x ++ ","%char :: join (y :: l).
Proof. reflexivity. Qed.

Lemma join_length_in x xs : In x xs -> (length x <= length (join xs))%nat.
Proof.
  induction xs as [|y [|z l] IH]; intros Hin.
  - destruct Hin.
  - destruct Hin as [->|[]]. cbn. lia.
  - rewrite join_cons, length_app. cbn [length].
    destruct Hin as [->|Hin]; [lia|]. specialize (IH Hin). lia.
Qed.

Lemma join_length_count xs :
  Forall (fun x => (1 <= length x)%nat) xs -> (length xs <= length (join xs))%nat.
Proof.
  induction xs as [|y [|z l] IH]; intros Hall.
  - cbn. lia.
  - inversion Hall; subst. cbn. lia.
  - inversion Hall; subst. rewrite join_cons, length_app. cbn [length].
    specialize (IH ltac:(assumption)). cbn [length] in IH. lia.
Qed.

Lemma parse_items_join pv (xs : list (list ascii * JsValue)) : forall n rest,
  xs <> [] -> (length xs <= n)%nat ->
  Forall (fun x => reads pv (fst x) (snd x)) xs ->
  parse_items pv n (join (map fst xs) ++ "]"%char :: rest) = Some (map snd xs, rest).
Proof.
  induction xs as [|[t j] [|y l] IH]; intros n rest Hne Hlen Hall.
  - contradiction.
  - destruct n as [|n]; [cbn in Hlen; lia|].
    inversion Hall as [|? ? Hx _]; subst. unfold reads in Hx; cbn [fst snd] in Hx. cbn [map join fst snd parse_items].
    rewrite (Hx ("]"%char :: rest)) by reflexivity. reflexivity.
  - destruct n as [|n]; [cbn in Hlen; lia|].
    inversion Hall as [|? ? Hx Hrest]; subst. unfold reads in Hx; cbn [fst snd] in Hx.
    cbn [map]. rewrite join_cons. cbn [fst snd parse_items].
    rewrite <- List.app_assoc. cbn [app].
    rewrite (Hx (","%char :: _)) by reflexivity.
    cbn [Ascii.eqb Bool.eqb]. cbn [map] in IH.
    rewrite (IH n rest); [reflexivity|discriminate|cbn in *; lia|exact Hrest].
Qed.

Lemma parse_members_join pv (xs : list (string * list ascii * JsValue)) : forall n rest,
  xs <> [] -> (length xs <= n)%nat ->
  Forall (fun x => reads pv (snd (fst x)) (snd x)) xs ->
  parse_members pv n (join (map member_text xs) ++ "}"%char :: rest)
  = Some (map member_json xs, rest).
Proof.
  assert (Hone : forall k t tail,
             member_text (k, t, JNull) ++ tail
             = dquote :: quote_body k ++ dquote :: ":"%char :: t ++ tail).
  { intros k t tail. unfold member_text, quote. cbn [fst snd app].
    rewrite <- !List.app_assoc. reflexivity. }
  induction xs as [|[[k t] j] [|y l] IH]; intros n rest Hne Hlen Hall.
  - contradiction.
  - destruct n as [|n]; [cbn in Hlen; lia|].
    inversion Hall as [|? ? Hx _]; subst. unfold reads in Hx; cbn [fst snd] in Hx. cbn [map join].
    change (member_text (k, t, j)) with (member_text (k, t, JNull)). rewrite Hone.
    cbn [parse_members]. rewrite Ascii.eqb_refl, parse_quote_body.
    cbn [Ascii.eqb Bool.eqb].
    rewrite (Hx ("}"%char :: rest)) by reflexivity. reflexivity.
  - destruct n as [|n]; [cbn in Hlen; lia|].
    inversion Hall as [|? ? Hx Hrest]; subst. unfold reads in Hx; cbn [fst snd] in Hx.
    cbn [map]. rewrite join_cons. rewrite <- List.app_assoc. cbn [app].
    change (member_text (k, t, j)) with (member_text (k, t, JNull)). rewrite Hone.
    cbn [parse_members]. rewrite Ascii.eqb_refl, parse_quote_body.
    cbn [Ascii.eqb Bool.eqb].
    rewrite (Hx (","%char :: _)) by reflexivity.
    cbn [Ascii.eqb Bool.eqb]. cbn [map] in IH.
    rewrite (IH n rest); [reflexivity|discriminate|cbn in *; lia|exact Hrest].
Qed.

(** How each kind of value starts, and how [parse_value] goes on. *)
Lemma number_text_head n :
  exists c t, number_text n = c :: t /\ (is_digit c = true \/ c = "-"%char).
Proof.
  unfold number_text. destruct n as [|p|p]; cbn [Z.to_int NilZero.string_of_int].
  - eexists _, _. split; [reflexivity|]. left; reflexivity.
  - destruct (digits_head _ (pos_to_uint_nonnil p)) as (c & t & E & Hc). eauto.
  - eexists _, _. split; [reflexivity|]. right; reflexivity.
Qed.

Lemma parse_value_number f c s :
  is_digit c = true \/ c = "-"%char ->
  parse_value (S f) (c :: s) =
  match parse_number (c :: s) with
  | Some (n, rest) => Some (JNum n, rest)
  | None => None
  end.
Proof.
  destruct c as [[] [] [] [] [] [] [] []];
    intros [H|H]; try discriminate H; reflexivity.
Qed.

Lemma parse_value_string f body :
  parse_value (S f) (dquote :: body) =
  match parse_string_body body with
  | Some (str, rest) => Some (JStr str, rest)
  | None => None
  end.
Proof. reflexivity. Qed.

Lemma parse_value_array f c body :
  Ascii.eqb c "]"%char = false ->
  parse_value (S f) ("["%char :: c :: body) =
  match parse_items (parse_value f) f (c :: body) with
  | Some (items, rest) => Some (JArr items, rest)
  | None => None
  end.
Proof. intros H. cbn [parse_value Ascii.eqb Bool.eqb]. rewrite H. reflexivity. Qed.

Lemma parse_value_object f c body :
  Ascii.eqb c "}"%char = false ->
  parse_value (S f) ("{"%char :: c :: body) =
  match parse_members (parse_value f) f (c :: body) with
  | Some (ms, rest) => Some (JObj ms, rest)
  | None => None
  end.
Proof. intros H. cbn [parse_value Ascii.eqb Bool.eqb]. rewrite H. reflexivity. Qed.

Lemma stringify_none v : stringify v = None -> v = JUndefined.
Proof. destruct v as [| |[]| | | |]; cbn; intros H; try discriminate H; reflexivity. Qed.

Lemma item_json_defined v t : stringify v = Some t -> item_json v = to_json v.
Proof. destruct v; cbn; intros H; try discriminate H; reflexivity. Qed.

Lemma item_text_head i :
  exists c t, item_text i = c :: t /\ Ascii.eqb c "]"%char = false.
Proof.
  unfold item_text.
  destruct i as [| |[]|n| | |]; cbn [stringify];
    try (eexists _, _; split; [reflexivity|reflexivity]).
  destruct (number_text_head n) as (c & t & E & Hc). exists c, t. split; [exact E|].
  destruct Hc as [Hc| ->]; [|reflexivity].
  destruct c as [[] [] [] [] [] [] [] []]; try reflexivity; discriminate Hc.
Qed.

Lemma item_text_nonempty i : (1 <= length (item_text i))%nat.
Proof. destruct (item_text_head i) as (c & t & E & _). rewrite E. cbn. lia. Qed.

Lemma join_head x l c t : x = c :: t -> exists t', join (x :: l) = c :: t'.
Proof.
  intros ->. destruct l as [|y l]; [eexists; reflexivity|].
  rewrite join_cons. eexists. reflexivity.
Qed.

(** The properties written, against the two traversals of the object. *)
Lemma stringify_members props :
  flat_map (fun p => let '(k, x) := p in
                     match stringify x with
                     | Some t => [quote k ++ ":"%char :: t]
                     | None => []
                     end) props
  = map member_text (written props).
Proof.
  induction props as [|[k x] props IH]; [reflexivity|].
  cbn [flat_map written]. fold (written props). rewrite IH.
  destruct (stringify x); reflexivity.
Qed.

Lemma to_json_members props :
  flat_map (fun p => let '(k, x) := p in
                     match x with
                     | JUndefined => []
                     | _ => [(k, to_json x)]
                     end) props
  = map member_json (written props).
Proof.
  induction props as [|[k x] props IH]; [reflexivity|].
  cbn [flat_map written]. fold (written props). rewrite IH.
  destruct x as [| |[]| | | |]; reflexivity.
Qed.

Lemma written_in m props :
  In m (written props) ->
  exists x, stringify x = Some (snd (fst m)) /\ snd m = to_json x.
Proof.
  unfold written. rewrite in_flat_map. intros ([k x] & _ & Hin).
  destruct (stringify x) as [t|] eqn:E; [|destruct Hin].
  destruct Hin as [<-|[]]. exists x. split; [exact E|reflexivity].
Qed.

Lemma member_text_length m : (S (length (snd (fst m))) <= length (member_text m))%nat.
Proof. unfold member_text. rewrite length_app. cbn [length]. lia. Qed.

(** Reading back what [stringify] wrote. *)
Lemma parse_value_stringify : forall fuel v t rest,
  stringify v = Some t -> (length t < fuel)%nat -> number_stop rest ->
  parse_value fuel (t ++ rest) = Some (to_json v, rest).
Proof.
  induction fuel as [|f IH]; intros v t rest Hs Hlen Hstop; [lia|].
  destruct v as [| |b|n|s|items|props]; cbn [stringify] in Hs; try discriminate Hs.
  - injection Hs as <-. reflexivity.
  - destruct b; injection Hs as <-; reflexivity.
  - injection Hs as <-.
    destruct (number_text_head n) as (c & t' & E & Hc).
    pose proof (parse_number_text n rest Hstop) as Hn.
    rewrite E in *. cbn [app] in *. rewrite (parse_value_number f c _ Hc), Hn. reflexivity.
  - injection Hs as <-. unfold quote. cbn [app].
    rewrite parse_value_string, <- List.app_assoc, parse_quote. reflexivity.
  - injection Hs as <-.
    change (map _ items) with (map item_text items) in *.
    change (to_json (JArr items)) with (JArr (map item_json items)).
    destruct items as [|i items]; [reflexivity|].
    set (xs := map (fun i => (item_text i, item_json i)) (i :: items)).
    assert (Ht : map item_text (i :: items) = map fst xs)
      by (unfold xs; rewrite map_map; reflexivity).
    assert (Hj : map item_json (i :: items) = map snd xs)
      by (unfold xs; rewrite map_map; reflexivity).
    assert (Hcount : (length (i :: items) <= length (join (map item_text (i :: items))))%nat).
    { rewrite <- (length_map item_text). apply join_length_count.
      apply List.Forall_forall. intros x Hx. apply in_map_iff in Hx as (y & <- & _).
      apply item_text_nonempty. }
    cbn [length] in Hlen. rewrite length_app in Hlen. cbn [length] in Hlen.
    destruct (item_text_head i) as (c & t' & E & Hc).
    destruct (join_head (item_text i) (map item_text items) c t' E) as (t'' & Ejoin).
    cbn [app]. rewrite <- List.app_assoc. cbn [app].
    change (map item_text (i :: items)) with (item_text i :: map item_text items) in *.
    pose proof Ejoin as Ejoin'. rewrite Ejoin. cbn [app].
    rewrite (parse_value_array f c _ Hc).
    change (c :: t'' ++ "]"%char :: rest) with ((c :: t'') ++ "]"%char :: rest).
    rewrite <- Ejoin, Hj.
    change (item_text i :: map item_text items) with (map item_text (i :: items)) in *.
    rewrite Ht.
    rewrite (parse_items_join (parse_value f) xs f rest); [reflexivity| | |].
    + unfold xs. discriminate.
    + unfold xs. rewrite length_map. lia.
    + unfold xs. apply List.Forall_forall. intros x Hx.
      apply in_map_iff in Hx as (y & <- & Hy). cbn [fst snd].
      intros rest' Hstop'.
      assert (Hy' : (length (item_text y) <= length (join (map item_text (i :: items))))%nat)
        by (apply join_length_in, in_map, Hy).
      unfold item_text in *. destruct (stringify y) as [ty|] eqn:Ey.
      * rewrite (item_json_defined y ty Ey). apply (IH y ty rest' Ey); [lia|exact Hstop'].
      * apply stringify_none in Ey. subst y.
        destruct f as [|f']; [cbn in Hy'; lia|]. reflexivity.
  - injection Hs as <-.
    rewrite stringify_members in *.
    change (to_json (JObj props)) with
      (JObj (flat_map (fun p => let '(k, x) := p in
                                match x with
                                | JUndefined => []
                                | _ => [(k, to_json x)]
                                end) props)).
    rewrite to_json_members.
    destruct (written props) as [|m ms] eqn:Ew; [reflexivity|].
    assert (Hcount : (length (m :: ms) <= length (join (map member_text (m :: ms))))%nat).
    { rewrite <- (length_map member_text). apply join_length_count.
      apply List.Forall_forall. intros x Hx. apply in_map_iff in Hx as (y & <- & _).
      pose proof (member_text_length y). lia. }
    cbn [length] in Hlen. rewrite length_app in Hlen. cbn [length] in Hlen.
    assert (Hhead : exists t'', join (map member_text (m :: ms)) = dquote :: t'').
    { cbn [map]. eapply join_head. unfold member_text, quote. reflexivity. }
    destruct Hhead as (t'' & Ejoin).
    cbn [app]. rewrite <- List.app_assoc. cbn [app].
    rewrite Ejoin. cbn [app].
    rewrite (parse_value_object f dquote _ eq_refl).
    change (dquote :: t'' ++ "}"%char :: rest) with ((dquote :: t'') ++ "}"%char :: rest).
    rewrite <- Ejoin.
    rewrite (parse_members_join (parse_value f) (m :: ms) f rest); [reflexivity| | |].
    + discriminate.
    + cbn [length] in *. lia.
    + apply List.Forall_forall. intros x Hx. intros rest' Hstop'.
      assert (Hx' : (length (member_text x) <= length (join (map member_text (m :: ms))))%nat)
        by (apply join_length_in, in_map, Hx).
      pose proof (member_text_length x) as Hx''.
      rewrite <- Ew in Hx. apply written_in in Hx as (y & Ey & ->).
      apply (IH y _ rest' Ey); [lia|exact Hstop'].
Qed.

Lemma stringify_defined v : v <> JUndefined -> exists t, stringify v = Some t.
Proof. destruct v as [| |[]| | | |]; intros H; try contradiction; eexists; reflexivity. Qed.

(** [JSON.parse(JSON.stringify(v))]. *)
Lemma JSON_parse_stringify v text :
  JSON_stringify v = Some text -> JSON_parse text = Some (to_json v).
Proof.
  unfold JSON_stringify, JSON_parse. destruct (stringify v) as [t|] eqn:E; [|discriminate].
  intros [= <-]. rewrite list_ascii_of_string_of_list_ascii.
  pose proof (parse_value_stringify (S (length t)) v t [] E ltac:(lia) I) as H.
  rewrite app_nil_r in H.
  replace (String.length (string_of_list_ascii t)) with (length t).
  - rewrite H. reflexivity.
  - clear. induction t as [|c t IH]; [reflexivity|]. cbn. rewrite IH. reflexivity.
Qed.

End JsonProofs.

Module FileFormatProofs.
Import Js Json FileFormat JsonProofs.




Lemma rest_props_key named (o : JsObject) k :
  In k (keys (rest_props named o)) -> In k (keys o) /\ ~ In k named.
Proof.
  unfold keys, rest_props. rewrite in_map_iff. intros ([k' v] & <- & Hin).
  apply filter_In in Hin as [Hin Hf]. cbn [fst] in *. split.
  - apply in_map_iff. exists (k', v). auto.
  - intros Hn. apply negb_true_iff in Hf.
    assert (existsb (String.eqb k') named = true) as Ht.
    { apply existsb_exists. exists k'. split; [exact Hn|apply String.eqb_refl]. }
    congruence.
Qed.

Lemma rest_props_nodup named (o : JsObject) :
  List.NoDup (keys o) -> List.NoDup (keys (rest_props named o)).
Proof.
  induction o as [|[k v] o IH]; intros Hnd; [constructor|].
  cbn [keys map fst] in Hnd. inversion Hnd as [|? ? Hk Hnd']; subst.
  unfold rest_props. cbn [List.filter fst].
  destruct (negb (existsb (String.eqb k) named)).
  - cbn [keys map fst]. constructor; [|apply IH, Hnd'].
    intros Hin. apply rest_props_key in Hin as [Hin _]. contradiction.
  - apply IH, Hnd'.
Qed.

Lemma json_props_app (a b : JsObject) : json_props (a ++ b) = json_props a ++ json_props b.
Proof. apply flat_map_app. Qed.


Lemma to_json_string s : to_json (JStr s) = JStr s.
Proof. reflexivity. Qed.



(** A message that is [undefined], as in [logger.info(undefined)], is a
    property JSON leaves out. *)
Remark undefined_message_is_left_out :
  exists text,
    printf_template [("level", JStr "info"); ("message", JUndefined);
                     ("timestamp", JStr "2024-05-01 10:00:00")] = Some text
    /\ JSON_parse text =
       Some (JObj [("timestamp", JStr "2024-05-01 10:00:00"); ("level", JStr "INFO")]).
Proof. eexists. split; [vm_compute; reflexivity|vm_compute; reflexivity]. Qed.



End FileFormatProofs.

(** * Further properties of the configuration code *)

Module ConfigCoverage.
Import Js Effects WinstonConfig SinkSpec Coverage ConfigProofs.

(** The directories above [/var/log/app]. *)
Example ancestors_of_a_path : ancestors "/var/log/app" = ["/var"; "/var/log"].
Proof. reflexivity. Qed.

(** In an empty file system the directory is made with the two above it,
    and nothing is printed. *)
Example parents_are_created :
  ensureLogDirectory "/var/log/app" empty_world =
    (Returned tt,
     {| fs_existing := {["/var/log/app"]} ∪ ({["/var/log"]} ∪ ({["/var"]} ∪ ∅));
        fs_denied := ∅;
        console_err := [] |}).
Proof. vm_compute. reflexivity. Qed.

(** X1. [ensureLogDirectory] never throws. It removes nothing and adds to
    the file system only the directory and the directories above it. When
    it returns, either the directory exists and nothing was printed (and if
    it had to be made, the directories above it exist too), or the directory
    is still missing because one of them could not be made, and exactly one
    diagnostic was printed. *)
Theorem X1_ensureLogDirectory_outcome (d : string) (w : World) :
  exists w',
    ensureLogDirectory d w = (Returned tt, w')
    /\ fs_denied w' = fs_denied w
    /\ fs_existing w ⊆ fs_existing w'
    /\ (forall x, x ∈ fs_existing w' -> x ∈ fs_existing w \/ In x (ancestors d ++ [d]))
    /\ ((d ∈ fs_existing w' /\ console_err w' = console_err w
         /\ (d ∉ fs_existing w -> forall p, In p (ancestors d) -> p ∈ fs_existing w'))
        \/ ((d ∉ fs_existing w')
            /\ (exists p, In p (ancestors d ++ [d]) /\ p ∈ fs_denied w /\ p ∉ fs_existing w')
            /\ console_err w' = console_err w ++ [dir_failed_line d])).
Proof.
  destruct (ensureLogDirectory_cases d w)
    as [[Hin H]|[(Hout & w1 & Hmk & H & Hin1)|(Hout & w0 & Hmk & H & Hout0)]];
    rewrite H; eexists; (split; [reflexivity|]).
  - repeat split; auto. left. repeat split; auto. intros Hout. contradiction.
  - unfold mkdirSync in Hmk.
    destruct (DirectoryProofs.mkdirs_spec d (ancestors d ++ [d]) w)
      as (out & w2 & E & Hd & Hc & Hsub & Hnew & Hall).
    rewrite Hmk in E. injection E as <- <-.
    repeat (split; [assumption|]). split.
    + intros x Hx. destruct (Hnew x Hx) as [?|[? _]]; auto.
    + left. repeat split; auto. intros _ p Hp. apply Hall, in_or_app. left. exact Hp.
  - unfold mkdirSync in Hmk.
    destruct (DirectoryProofs.mkdirs_spec d (ancestors d ++ [d]) w)
      as (out & w2 & E & Hd & Hc & Hsub & Hnew & Hall).
    rewrite Hmk in E. injection E as <- <-.
    cbn [after_diagnostic fs_denied fs_existing console_err].
    repeat (split; [assumption|]). split.
    + intros x Hx. destruct (Hnew x Hx) as [?|[? _]]; auto.
    + right. destruct Hall as (_ & Hp). repeat split; auto. rewrite Hc. reflexivity.
Qed.

(** X2. Calling [ensureLogDirectory] again on the same directory changes
    nothing once the directory exists; while it cannot be created, every
    call prints the diagnostic again. *)
Theorem X2_ensureLogDirectory_again (d : string) (w : World) :
  exists w1 w2,
    ensureLogDirectory d w = (Returned tt, w1)
    /\ ensureLogDirectory d w1 = (Returned tt, w2)
    /\ fs_existing w2 = fs_existing w1
    /\ (d ∈ fs_existing w1 -> w2 = w1)
    /\ (d ∉ fs_existing w1 ->
        console_err w2 = console_err w ++ [dir_failed_line d; dir_failed_line d]).
Proof.
  destruct (ensureLogDirectory_cases d w)
    as [[Hin H]|[(Hout & w1 & Hmk & H & Hin1)|(Hout & w0 & Hmk & H & Hout0)]];
    rewrite H; clear H.
  - destruct (ensureLogDirectory_cases d w) as [[_ H]|[(Hout & _)|(Hout & _)]];
      [|contradiction..].
    eexists _, _. split; [reflexivity|]. split; [exact H|].
    repeat split; try reflexivity. intros Hout. contradiction.
  - destruct (ensureLogDirectory_cases d w1) as [[_ H]|[(Hout1 & _)|(Hout1 & _)]];
      [|contradiction..].
    eexists _, _. split; [reflexivity|]. split; [exact H|].
    repeat split; try reflexivity. intros Hout1. contradiction.
  - pose proof (mkdirSync_after_diagnostic d w w0 Hout Hmk) as Hagain.
    assert (Hc : console_err w0 = console_err w).
    { destruct (DirectoryProofs.mkdirSync_spec d w Hout) as (out & w2 & E & _ & Hc & _).
      rewrite Hmk in E. injection E as <- <-. exact Hc. }
    destruct (ensureLogDirectory_cases d (after_diagnostic d w0))
      as [[Hin1 _]|[(_ & w1 & Hmk1 & _)|(_ & w2 & Hmk2 & H & _)]].
    + contradiction.
    + rewrite Hagain in Hmk1. discriminate.
    + rewrite Hagain in Hmk2. injection Hmk2 as <-.
      eexists _, _. split; [reflexivity|]. split; [exact H|].
      repeat split.
      * intros Hin1. contradiction.
      * intros _. cbn [after_diagnostic console_err]. rewrite Hc, <- List.app_assoc.
        reflexivity.
Qed.

(** X3. Every rotating file transport uses the file format and writes into
    the resolved log directory with the one resolved date pattern, size
    limit and compression flag; the console transport uses the console
    format of the environment. *)
Theorem X3_transports_share_settings (o : ReusableLoggerOptions) (w : World) :
  exists cfg w',
    createWinstonConfig o w = (Returned cfg, w')
    /\ Forall (fun t =>
                 match t with
                 | DailyRotateFile f =>
                     f_format f = fileLogFormat
                     /\ (exists file, f_filename f = path_join (r_logDir (resolve o)) file)
                     /\ f_datePattern f = r_datePattern (resolve o)
                     /\ f_maxSize f = r_maxSize (resolve o)
                     /\ f_zippedArchive f = r_zippedArchive (resolve o)
                 | Console c => c_format c = consoleFormat (isProduction (resolve o))
                 end) (lo_transports cfg).
Proof.
  rewrite createWinstonConfig_run. eexists _, _. split; [reflexivity|].
  cbn [lo_transports]. unfold console_part, file_part, tier_sinks.
  destruct (r_enableConsole (resolve o)), (r_enableFile (resolve o)),
    (wants_debug_file (resolve o)); cbn [app];
    repeat (constructor; [first [reflexivity | repeat split; eauto]|]); constructor.
Qed.

(** X4. No two transports write the same file; there is at most one console
    transport, and there are no, four or five file transports. *)
Theorem X4_transports_are_distinct (o : ReusableLoggerOptions) (w : World) :
  exists cfg w',
    createWinstonConfig o w = (Returned cfg, w')
    /\ List.NoDup (filenames (lo_transports cfg))
    /\ (length (console_sinks (lo_transports cfg)) <= 1)%nat
    /\ (length (file_sinks (lo_transports cfg)) = 0%nat
        \/ length (file_sinks (lo_transports cfg)) = 4%nat
        \/ length (file_sinks (lo_transports cfg)) = 5%nat).
Proof.
  rewrite createWinstonConfig_run. eexists _, _. split; [reflexivity|].
  cbn [lo_transports]. rewrite console_sinks_composed, file_sinks_composed.
  unfold console_part, file_part, tier_sinks. split; [|split].
  - destruct (r_enableConsole (resolve o)), (r_enableFile (resolve o)),
      (wants_debug_file (resolve o)); cbv [tier_file String.append]; cbn;
      repeat (constructor; [cbn; intuition congruence|]); constructor.
  - destruct (r_enableConsole (resolve o)); cbn; lia.
  - destruct (r_enableFile (resolve o)), (wants_debug_file (resolve o)); cbn; auto.
Qed.

(** X5. Uncaught exceptions and rejections are handled by the console
    transport and by the error file, and by no other tier. *)
Theorem X5_crash_handling (o : ReusableLoggerOptions) (w : World) :
  exists cfg w',
    createWinstonConfig o w = (Returned cfg, w')
    /\ Forall (fun t => handles_crashes t = is_console t || is_tier "error" t)
              (lo_transports cfg).
Proof.
  rewrite createWinstonConfig_run. eexists _, _. split; [reflexivity|].
  cbn [lo_transports]. unfold console_part, file_part, tier_sinks.
  destruct (r_enableConsole (resolve o)), (r_enableFile (resolve o)),
    (wants_debug_file (resolve o)); cbn [app];
    repeat (constructor; [reflexivity|]); constructor.
Qed.

(** X8. File lines are never coloured and always carry the full date and
    time; the console is coloured, with the time only, exactly outside
    production. *)
Theorem X8_formats_by_environment (o : ReusableLoggerOptions) (w : World) :
  exists cfg w',
    createWinstonConfig o w = (Returned cfg, w')
    /\ Forall (fun t =>
                 colorizes (format_of t) = is_console t && negb (isProduction (resolve o))
                 /\ timestamp_patterns (format_of t) =
                      [if is_console t && negb (isProduction (resolve o))
                       then "HH:mm:ss" else "YYYY-MM-DD HH:mm:ss"])
              (lo_transports cfg).
Proof.
  rewrite createWinstonConfig_run. eexists _, _. split; [reflexivity|].
  cbn [lo_transports]. unfold console_part, file_part, tier_sinks, console_transport.
  destruct (r_enableConsole (resolve o)), (r_enableFile (resolve o)),
    (wants_debug_file (resolve o)), (isProduction (resolve o)); cbn [app];
    repeat (constructor; [split; reflexivity|]); constructor.
Qed.

End ConfigCoverage.

(** * The transports under construction *)

Module ConstructionProofs.
Import Js Effects WinstonConfig SinkSpec Coverage ConfigProofs.
Import Construction.

(** The steps of [createWinstonConfig] that touch the world: the directory
    check, then the constructors of the file transports in the order of the
    list. *)
Lemma compose_steps lib r w :
  r_logDir r <> "" ->
  Construction.compose lib r w =
    ((if r_enableFile r
      then ensureLogDirectory (r_logDir r);; construct_all lib (tier_sinks r)
      else mret tt);;
     mret (configuration r)) w.
Proof.
  intros Hdir.
  assert (Ht : String.eqb (r_logDir r) "" = false)
    by (apply String.eqb_neq; exact Hdir).
  unfold Construction.compose, configuration, console_part, file_part, tier_sinks, tier_file,
    push_new, console_transport, file_transport.
  cbv [String.append].
  unfold mbind, Eff_bind, bind, mret, Eff_ret, ret. unfold truthy. rewrite Ht. cbn [negb].
  rewrite (Z.mul_comm (r_maxFiles r) 2).
  destruct (r_enableFile r).
  - destruct (ensureLogDirectory_returns (r_logDir r) w) as [w' Hw].
    destruct (r_enableConsole r), (wants_debug_file r); cbv beta iota; rewrite !Hw;
      cbn [construct_all app]; unfold mbind, Eff_bind, bind, mret, Eff_ret, ret;
      repeat match goal with
             | |- context [lib ?o ?x] => destruct (lib o x) as [[[]|?] ?]; cbv beta iota
             end; reflexivity.
  - destruct (r_enableConsole r); cbv beta iota; rewrite ?app_nil_r; reflexivity.
Qed.

Lemma createWinstonConfig_steps lib o w :
  Construction.createWinstonConfig lib o w =
    ((if r_enableFile (resolve o)
      then ensureLogDirectory (r_logDir (resolve o));;
           construct_all lib (tier_sinks (resolve o))
      else mret tt);;
     mret (configuration (resolve o))) w.
Proof. apply compose_steps, resolve_logDir_nonempty. Qed.

(** What a run returns is what its last [return] gives. *)
Lemma then_ret_returned {A B} (m : Eff A) (c b : B) w w' :
  (m;; mret c) w = (Returned b, w') -> b = c /\ exists a, m w = (Returned a, w').
Proof.
  unfold mbind, Eff_bind, bind, mret, Eff_ret, ret.
  destruct (m w) as [[a|e] w1]; intros H; [|discriminate].
  injection H as <- <-. eauto.
Qed.

Lemma construct_all_returns lib ts :
  always_returns lib -> forall w, exists w', construct_all lib ts w = (Returned tt, w').
Proof.
  intros Hlib. induction ts as [|[c|f] ts IH]; intros w; cbn [construct_all].
  - exists w. reflexivity.
  - apply IH.
  - unfold mbind, Eff_bind, bind. destruct (Hlib f w) as [w1 ->]. apply IH.
Qed.

Lemma construct_all_no_effect ts w :
  construct_all no_effect ts w = (Returned tt, w).
Proof.
  induction ts as [|[c|f] ts IH]; cbn [construct_all]; [reflexivity|exact IH|].
  unfold mbind, Eff_bind, bind, no_effect, mret, Eff_ret, ret. exact IH.
Qed.

(** The transports kept as the options their constructors are given: that
    is the construction with a constructor without effect. *)
Remark createWinstonConfig_of_options o w :
  Construction.createWinstonConfig no_effect o w = WinstonConfig.createWinstonConfig o w.
Proof.
  rewrite createWinstonConfig_steps, createWinstonConfig_run.
  unfold mbind, Eff_bind, bind, mret, Eff_ret, ret. cbv beta.
  destruct (r_enableFile (resolve o)); [|reflexivity].
  destruct (ensureLogDirectory_returns (r_logDir (resolve o)) w) as [w' Hw].
  rewrite Hw, construct_all_no_effect. reflexivity.
Qed.

Lemma makes_directory_fails : fails_without_directory makes_directory.
Proof.
  intros options w e w0 Hmk. unfold makes_directory. rewrite Hmk.
  exists e, w0. split; [reflexivity|].
  destruct (DirectoryProofs.mkdirs_spec (path_dir (f_filename options))
              (ancestors (path_dir (f_filename options)) ++ [path_dir (f_filename options)]) w)
    as (out & w2 & E & _ & Hc & _).
  unfold mkdirSync in Hmk. rewrite Hmk in E. injection E as <- <-. exact Hc.
Qed.

(** The run of [createWinstonConfig] where [mkdirSync] fails on the log
    directory, with a constructor that fails where the directory cannot be
    made: one diagnostic, then the error is thrown. *)
Lemma failed_directory_run lib o w w0 :
  fails_without_directory lib ->
  r_enableFile (resolve o) = true ->
  r_logDir (resolve o) ∉ fs_existing w ->
  mkdirSync (r_logDir (resolve o)) w = (Thrown (FsError "EACCES" (r_logDir (resolve o))), w0) ->
  exists e w',
    Construction.createWinstonConfig lib o w = (Thrown e, w')
    /\ console_err w' = console_err w ++ [dir_failed_line (r_logDir (resolve o))].
Proof.
  intros Hlib Hfile Hmissing Hmk.
  rewrite createWinstonConfig_steps, Hfile.
  set (d := r_logDir (resolve o)) in *.
  destruct (DirectoryProofs.mkdirSync_spec d w Hmissing)
    as (out & w2 & E & _ & Hc & _ & _ & Hcase).
  rewrite Hmk in E. injection E as <- <-.
  destruct (ensureLogDirectory_cases d w)
    as [[Hin _]|[(_ & w1 & Hmk1 & _)|(_ & w1 & Hmk1 & Hrun & _)]].
  - contradiction.
  - rewrite Hmk in Hmk1. discriminate.
  - rewrite Hmk in Hmk1. injection Hmk1 as <-.
    pose proof (mkdirSync_after_diagnostic d w w0 Hmissing Hmk) as Hagain.
    unfold mbind, Eff_bind, bind. rewrite Hrun. cbv beta iota.
    unfold tier_sinks, file_transport. cbn [app construct_all].
    unfold mbind, Eff_bind, bind.
    match goal with
    | |- context [lib ?f (after_diagnostic d w0)] =>
        destruct (Hlib f (after_diagnostic d w0) _ _ Hagain) as (e' & w' & -> & Hc')
    end.
    exists e', w'. split; [reflexivity|].
    rewrite Hc'. cbn [after_diagnostic console_err]. rewrite Hc. reflexivity.
Qed.

(** A directory that is missing and denied makes [mkdirSync] throw. *)
Lemma mkdirSync_denied d w :
  d ∉ fs_existing w -> d ∈ fs_denied w ->
  exists w0, mkdirSync d w = (Thrown (FsError "EACCES" d), w0).
Proof.
  intros Hmissing Hdenied.
  destruct (DirectoryProofs.mkdirSync_spec d w Hmissing)
    as (out & w2 & E & _ & _ & _ & _ & Hcase).
  destruct out as [[]|e].
  - destruct Hcase as [_ Hok]. contradiction.
  - destruct Hcase as (-> & _). eauto.
Qed.

(** C1 (the code departs from the claim). With file logging enabled and a
    log directory that is missing and cannot be made, [ensureLogDirectory]
    writes its diagnostic and returns, and [createWinstonConfig] goes on to
    construct the file transports: nothing is skipped. With a constructor
    that fails where the directory of its file cannot be made, the
    constructor of the error file throws: the call raises and returns no
    sink list, with the one diagnostic printed. Whatever the constructor does, the call never returns a list
    without its file sinks. *)
Theorem C1_failed_directory_raises
    (lib : DailyRotateFileOptions -> Eff unit) (o : ReusableLoggerOptions) (w : World) :
  fails_without_directory lib ->
  enableFile o = Some true ->
  r_logDir (resolve o) ∉ fs_existing w ->
  r_logDir (resolve o) ∈ fs_denied w ->
  (exists e w',
     Construction.createWinstonConfig lib o w = (Thrown e, w')
     /\ console_err w' =
          console_err w ++
          [ConsoleError (dir_failed_text (r_logDir (resolve o)))
                        (Some (FsError "EACCES" (r_logDir (resolve o))))])
  /\ (forall lib' cfg w',
        Construction.createWinstonConfig lib' o w = (Returned cfg, w') ->
        console_sinks (lo_transports cfg) = console_part (resolve o)
        /\ file_sinks (lo_transports cfg) = tier_sinks (resolve o)
        /\ (4 <= length (file_sinks (lo_transports cfg)))%nat).
Proof.
  intros Hlib Hfile Hmissing Hdenied. split.
  - destruct (mkdirSync_denied _ w Hmissing Hdenied) as [w0 Hmk].
    exact (failed_directory_run lib o w w0 Hlib (enableFile_resolved o Hfile) Hmissing Hmk).
  - intros lib' cfg w' Hrun. rewrite createWinstonConfig_steps in Hrun.
    apply then_ret_returned in Hrun. destruct Hrun as [-> _].
    cbn [configuration lo_transports].
    rewrite console_sinks_composed, file_sinks_composed.
    unfold file_part. rewrite (enableFile_resolved o Hfile).
    repeat split. apply tier_sinks_length.
Qed.

(** The failing input, with a constructor that makes the directory of its
    file: one diagnostic, then [EACCES] is thrown. *)
Example failed_directory_scenario :
  fst (Construction.createWinstonConfig makes_directory production_options readonly_world)
    = Thrown (FsError "EACCES" "/tmp/logs")
  /\ console_err
       (snd (Construction.createWinstonConfig makes_directory production_options
               readonly_world))
     = [dir_failed_line "/tmp/logs"].
Proof. vm_compute. split; reflexivity. Qed.

Lemma C1_failed_directory_witness :
  (exists e w',
     Construction.createWinstonConfig makes_directory production_options readonly_world =
       (Thrown e, w')
     /\ console_err w' =
          console_err readonly_world ++
          [ConsoleError (dir_failed_text (r_logDir (resolve production_options)))
                        (Some (FsError "EACCES" (r_logDir (resolve production_options))))])
  /\ (forall lib' cfg w',
        Construction.createWinstonConfig lib' production_options readonly_world
          = (Returned cfg, w') ->
        console_sinks (lo_transports cfg) = console_part (resolve production_options)
        /\ file_sinks (lo_transports cfg) = tier_sinks (resolve production_options)
        /\ (4 <= length (file_sinks (lo_transports cfg)))%nat).
Proof.
  apply (C1_failed_directory_raises makes_directory production_options readonly_world).
  - exact makes_directory_fails.
  - reflexivity.
  - vm_compute. discriminate.
  - vm_compute. reflexivity.
Defined.

End ConstructionProofs.

(** * Further properties of the construction and of the module factory *)

Module ConstructionCoverage.
Import Js Effects WinstonConfig SinkSpec Coverage ConfigProofs.
Import Construction ConstructionProofs.

(** X6. What [createWinstonConfig] returns depends neither on the file
    system nor on what the constructors of the file transports do: these
    decide only whether it returns. It returns whenever no constructor
    throws. The logger is told not to exit on error, and its level is the
    resolved one. *)
Theorem X6_configuration_ignores_file_system
    (lib : DailyRotateFileOptions -> Eff unit) (o : ReusableLoggerOptions) (w : World) :
  (forall cfg w',
     Construction.createWinstonConfig lib o w = (Returned cfg, w') ->
     cfg = configuration (resolve o))
  /\ (always_returns lib ->
      exists w',
        Construction.createWinstonConfig lib o w = (Returned (configuration (resolve o)), w'))
  /\ lo_level (configuration (resolve o)) = r_logLevel (resolve o)
  /\ lo_exitOnError (configuration (resolve o)) = false.
Proof.
  split; [|split; [|split; reflexivity]].
  - intros cfg w' Hrun. rewrite createWinstonConfig_steps in Hrun.
    apply then_ret_returned in Hrun. apply Hrun.
  - intros Hlib. rewrite createWinstonConfig_steps.
    unfold mbind, Eff_bind, bind, mret, Eff_ret, ret.
    destruct (r_enableFile (resolve o)); [|eauto].
    destruct (ensureLogDirectory_returns (r_logDir (resolve o)) w) as [w1 ->].
    destruct (construct_all_returns lib (tier_sinks (resolve o)) Hlib w1) as [w2 ->].
    eauto.
Qed.

(** X7. With file logging off, [createWinstonConfig] constructs no file
    transport and leaves the world alone. With it on, its own code only
    checks the log directory: that removes nothing, adds to the file system
    only the directory and the directories above it, and prints one line at
    most; then the constructors of the file transports run in the order of
    the list, from the world the check left, and the first that throws ends
    the call. *)
Theorem X7_configuration_footprint
    (lib : DailyRotateFileOptions -> Eff unit) (o : ReusableLoggerOptions) (w : World) :
  (r_enableFile (resolve o) = false ->
   Construction.createWinstonConfig lib o w = (Returned (configuration (resolve o)), w))
  /\ (r_enableFile (resolve o) = true ->
      exists w1,
        ensureLogDirectory (r_logDir (resolve o)) w = (Returned tt, w1)
        /\ fs_denied w1 = fs_denied w
        /\ fs_existing w ⊆ fs_existing w1
        /\ (forall x, x ∈ fs_existing w1 ->
                      x ∈ fs_existing w
                      \/ In x (ancestors (r_logDir (resolve o)) ++ [r_logDir (resolve o)]))
        /\ (exists news,
              console_err w1 = console_err w ++ news /\ (length news <= 1)%nat)
        /\ Construction.createWinstonConfig lib o w =
             (construct_all lib (tier_sinks (resolve o));;
              mret (configuration (resolve o))) w1).
Proof.
  split; intros Hfile; rewrite createWinstonConfig_steps, Hfile; [reflexivity|].
  destruct (ensureLogDirectory_returns (r_logDir (resolve o)) w) as [w1 Hrun].
  destruct (ensureLogDirectory_world (r_logDir (resolve o)) w) as (Hd & Hsub & Hnew & Hc).
  cbv zeta in Hd, Hsub, Hnew, Hc. rewrite Hrun in Hd, Hsub, Hnew, Hc. cbn [snd] in *.
  exists w1. repeat (split; [assumption|]). split; [|split].
  - intros x Hx. destruct (Hnew x Hx) as [?|[? _]]; auto.
  - destruct Hc as [Hc|Hc]; rewrite Hc.
    + exists []. rewrite app_nil_r. split; [reflexivity|cbn; lia].
    + eexists. split; [reflexivity|cbn; lia].
  - unfold mbind, Eff_bind, bind. rewrite Hrun. reflexivity.
Qed.

Lemma early_check_directory o d :
  enableFile o = Some true -> logDir o = Some d -> d <> "" ->
  or_bool (enableFile o) false && truthy (opt_js (logDir o)) = true
  /\ r_enableFile (resolve o) = true
  /\ r_logDir (resolve o) = d.
Proof.
  intros Hfile Hdir Hne. apply String.eqb_neq in Hne.
  unfold resolve; cbn. rewrite Hfile, Hdir. cbn. rewrite Hne. auto.
Qed.

(** X9. The early directory check of the factory. Where it does not apply
    the factory is [createWinstonConfig]. Where it applies (file logging
    on, a log directory given), the factory is [createWinstonConfig] run in
    the world the check left: if the directory exists then, the check
    inside [createWinstonConfig] changes nothing; if not, that check prints
    the diagnostic a second time, and with a constructor that fails where
    the directory cannot be made the factory throws after the two lines. *)
Theorem X9_useFactory_checks_early
    (lib : DailyRotateFileOptions -> Eff unit) (o : ReusableLoggerOptions) (w : World) :
  (or_bool (enableFile o) false && truthy (opt_js (logDir o)) = false ->
   useFactory lib o w = Construction.createWinstonConfig lib o w)
  /\ (forall d,
        enableFile o = Some true -> logDir o = Some d -> d <> "" ->
        exists w0,
          ensureLogDirectory d w = (Returned tt, w0)
          /\ useFactory lib o w = Construction.createWinstonConfig lib o w0
          /\ (d ∈ fs_existing w0 -> ensureLogDirectory d w0 = (Returned tt, w0))
          /\ (d ∉ fs_existing w0 ->
              fails_without_directory lib ->
              exists e w2,
                useFactory lib o w = (Thrown e, w2)
                /\ console_err w2 =
                     console_err w ++ [dir_failed_line d; dir_failed_line d])).
Proof.
  split.
  - intros Hskip. unfold useFactory. rewrite Hskip. reflexivity.
  - intros d Hfile Hdir Hne.
    destruct (early_check_directory o d Hfile Hdir Hne) as (Hearly & Hon & Hd).
    unfold useFactory. rewrite Hearly, Hdir. change (default "" (Some d)) with d.
    unfold mbind at 1, Eff_bind at 1, bind at 1.
    destruct (ensureLogDirectory_cases d w)
      as [[Hin H]|[(Hout & w1 & Hmk & H & Hin1)|(Hout & w0 & Hmk & H & Hout0)]];
      rewrite H; eexists; (split; [reflexivity|]); (split; [reflexivity|]).
    + split; [intros _; exact H|]. intros Hno. contradiction.
    + split; [|intros Hno; contradiction]. intros _.
      destruct (ensureLogDirectory_cases d w1) as [[_ H1]|[(Hno & _)|(Hno & _)]];
        [exact H1|contradiction..].
    + split; [intros Hyes; contradiction|]. intros _ Hlib.
      pose proof (mkdirSync_after_diagnostic d w w0 Hout Hmk) as Hagain.
      assert (Hc : console_err w0 = console_err w).
      { destruct (DirectoryProofs.mkdirSync_spec d w Hout) as (out & w2 & E & _ & Hc & _).
        rewrite Hmk in E. injection E as <- <-. exact Hc. }
      subst d.
      destruct (failed_directory_run lib o (after_diagnostic (r_logDir (resolve o)) w0) _
                  Hlib Hon Hout0 Hagain) as (e & w2 & Hrun & Hc2).
      exists e, w2. split; [unfold mbind, Eff_bind, bind; rewrite H; exact Hrun|].
      rewrite Hc2. cbn [after_diagnostic console_err]. rewrite Hc, <- List.app_assoc.
      reflexivity.
Qed.

(** The factory on a directory that cannot be made, with a constructor that
    makes the directory of its file: the diagnostic twice, then [EACCES]
    is thrown. *)
Example factory_scenario :
  fst (useFactory makes_directory app_options locked_world)
    = Thrown (FsError "EACCES" "/var/log/app")
  /\ console_err (snd (useFactory makes_directory app_options locked_world))
     = [dir_failed_line "/var/log/app"; dir_failed_line "/var/log/app"].
Proof. vm_compute. split; reflexivity. Qed.

(** The same factory where the directory can be made: the configuration is
    returned, with its five file transports and nothing printed. *)
Example factory_scenario_success :
  fst (useFactory makes_directory app_options empty_world)
    = Returned (configuration (resolve app_options))
  /\ length (file_sinks (lo_transports (configuration (resolve app_options)))) = 5%nat
  /\ console_err (snd (useFactory makes_directory app_options empty_world)) = [].
Proof. vm_compute. repeat split; reflexivity. Qed.

End ConstructionCoverage.


(** * Objects: what a lookup finds after an update *)

Module ObjectFacts.
Import Js Json Coverage.

Lemma has_prop_get_none k (o : JsObject) : has_prop k o = false -> get_prop k o = None.
Proof.
  induction o as [|[k' v] o IH]; [reflexivity|]. cbn.
  destruct (String.eqb k k'); [discriminate|]. exact IH.
Qed.

Lemma get_none_not_key k (o : JsObject) : get_prop k o = None <-> ~ In k (keys o).
Proof.
  induction o as [|[k' v] o IH]; cbn; [tauto|].
  destruct (String.eqb k k') eqn:E.
  - apply String.eqb_eq in E. subst. split; [discriminate|]. intros H. exfalso. auto.
  - apply String.eqb_neq in E. rewrite IH. split; [|tauto].
    intros H [Heq|Hin]; [congruence|tauto].
Qed.

Lemma get_prop_replace_same k v (o : JsObject) :
  has_prop k o = true -> get_prop k (replace_prop k v o) = Some v.
Proof.
  induction o as [|[k' v'] o IH]; cbn; [discriminate|].
  destruct (String.eqb k k') eqn:E; cbn; rewrite E; [reflexivity|]. exact IH.
Qed.

Lemma get_prop_replace_other k k' v (o : JsObject) :
  k <> k' -> get_prop k (replace_prop k' v o) = get_prop k o.
Proof.
  intros Hne. induction o as [|[k2 v2] o IH]; cbn; [reflexivity|].
  destruct (String.eqb k' k2) eqn:E; cbn; [|rewrite IH; reflexivity].
  apply String.eqb_eq in E. subst k2. apply String.eqb_neq in Hne. rewrite Hne.
  reflexivity.
Qed.

Lemma get_prop_insert_same n k v (o : JsObject) :
  has_prop k o = false -> get_prop k (insert_index n k v o) = Some v.
Proof.
  induction o as [|[k' v'] o IH]; cbn; [rewrite String.eqb_refl; reflexivity|].
  destruct (String.eqb k k') eqn:E; [discriminate|]. cbn. intros Hno.
  destruct (array_index k') as [n'|]; [destruct (n' <? n)%N|]; cbn;
    rewrite ?E, ?String.eqb_refl; auto.
Qed.

Lemma get_prop_insert_other n k k' v (o : JsObject) :
  k <> k' -> get_prop k (insert_index n k' v o) = get_prop k o.
Proof.
  intros Hne. apply String.eqb_neq in Hne.
  induction o as [|[k2 v2] o IH]; cbn; [rewrite Hne; reflexivity|].
  destruct (array_index k2) as [n'|]; [destruct (n' <? n)%N|]; cbn; rewrite ?Hne, ?IH;
    reflexivity.
Qed.

Lemma get_prop_app k (a b : JsObject) :
  get_prop k (a ++ b) = match get_prop k a with
                        | Some v => Some v
                        | None => get_prop k b
                        end.
Proof.
  induction a as [|[k' v'] a IH]; cbn; [reflexivity|].
  destruct (String.eqb k k'); [reflexivity|exact IH].
Qed.

(** Reading a property just written. *)
Lemma get_prop_set_same k v (o : JsObject) : get_prop k (set_prop k v o) = Some v.
Proof.
  unfold set_prop. destruct (has_prop k o) eqn:E.
  - apply get_prop_replace_same, E.
  - destruct (array_index k); [apply get_prop_insert_same, E|].
    rewrite get_prop_app, (has_prop_get_none k o E). cbn.
    rewrite String.eqb_refl. reflexivity.
Qed.

(** Writing a property leaves the others as they were. *)
Lemma get_prop_set_other k k' v (o : JsObject) :
  k <> k' -> get_prop k (set_prop k' v o) = get_prop k o.
Proof.
  intros Hne. unfold set_prop. destruct (has_prop k' o).
  - apply get_prop_replace_other, Hne.
  - destruct (array_index k'); [apply get_prop_insert_other, Hne|].
    rewrite get_prop_app. cbn. apply String.eqb_neq in Hne. rewrite Hne.
    destruct (get_prop k o); reflexivity.
Qed.

(** A spread overrides, property by property. *)
Lemma get_prop_spread (b : JsObject) : forall (a : JsObject) k,
  List.NoDup (keys b) -> get_prop k (spread a b) = overridden a b k.
Proof.
  unfold overridden.
  induction b as [|[k1 v1] b IH]; intros a k Hnd; [reflexivity|].
  cbn [keys map fst] in Hnd. inversion Hnd as [|? ? Hk Hnd']; subst.
  unfold spread. cbn [fold_left fst snd]. fold (spread (set_prop k1 v1 a) b).
  rewrite (IH _ k Hnd'). cbn [get_prop].
  destruct (String.eqb k k1) eqn:E.
  - apply String.eqb_eq in E. subst k1.
    assert (Hnone : get_prop k b = None) by (apply get_none_not_key; exact Hk).
    rewrite Hnone. apply get_prop_set_same.
  - apply String.eqb_neq in E. rewrite (get_prop_set_other k k1 v1 a E). reflexivity.
Qed.

Lemma get_prop_spread_absent (b : JsObject) : forall (a : JsObject) k,
  get_prop k b = None -> get_prop k (spread a b) = get_prop k a.
Proof.
  induction b as [|[k1 v1] b IH]; intros a k Hnone; [reflexivity|].
  cbn [get_prop] in Hnone. destruct (String.eqb k k1) eqn:E; [discriminate|].
  unfold spread. cbn [fold_left fst snd]. fold (spread (set_prop k1 v1 a) b).
  rewrite (IH _ k Hnone). apply get_prop_set_other. apply String.eqb_neq. exact E.
Qed.

(** Updates keep the keys of an object distinct. *)
Lemma keys_insert_index n k v (o : JsObject) k' :
  In k' (keys (insert_index n k v o)) <-> k' = k \/ In k' (keys o).
Proof.
  induction o as [|[k2 v2] o IH]; cbn; [intuition|].
  destruct (array_index k2) as [n'|]; [destruct (n' <? n)%N|]; cbn;
    rewrite ?IH; intuition.
Qed.

Lemma keys_replace_prop k v (o : JsObject) : keys (replace_prop k v o) = keys o.
Proof.
  induction o as [|[k2 v2] o IH]; cbn; [reflexivity|].
  destruct (String.eqb k k2); cbn; [reflexivity|]. f_equal. exact IH.
Qed.

Lemma nodup_insert_index n k v (o : JsObject) :
  ~ In k (keys o) -> List.NoDup (keys o) -> List.NoDup (keys (insert_index n k v o)).
Proof.
  induction o as [|[k2 v2] o IH]; intros Hk Hnd; cbn.
  - constructor; [intros []|constructor].
  - cbn in Hk, Hnd. inversion Hnd as [|? ? Hk2 Hnd']; subst.
    destruct (array_index k2) as [n'|]; [destruct (n' <? n)%N|]; cbn.
    + constructor; [|apply IH; tauto].
      intros Hin. apply keys_insert_index in Hin as [->|Hin]; tauto.
    + constructor; [exact Hk|exact Hnd].
    + constructor; [exact Hk|exact Hnd].
Qed.

Lemma nodup_snoc (l : list string) k :
  ~ In k l -> List.NoDup l -> List.NoDup (l ++ [k]).
Proof.
  induction l as [|x l IH]; intros Hk Hnd; cbn.
  - constructor; [intros []|constructor].
  - inversion Hnd as [|? ? Hx Hnd']; subst. constructor.
    + rewrite in_app_iff. cbn. cbn in Hk. intuition.
    + apply IH; [cbn in Hk; tauto|exact Hnd'].
Qed.

Lemma nodup_set_prop k v (o : JsObject) :
  List.NoDup (keys o) -> List.NoDup (keys (set_prop k v o)).
Proof.
  intros Hnd. unfold set_prop. destruct (has_prop k o) eqn:E.
  - rewrite keys_replace_prop. exact Hnd.
  - assert (Hk : ~ In k (keys o)) by (apply get_none_not_key, has_prop_get_none, E).
    destruct (array_index k); [apply nodup_insert_index; assumption|].
    unfold keys. rewrite map_app. cbn. apply nodup_snoc; assumption.
Qed.

Lemma nodup_spread (b : JsObject) : forall a : JsObject,
  List.NoDup (keys a) -> List.NoDup (keys (spread a b)).
Proof.
  induction b as [|[k1 v1] b IH]; intros a Hnd; [exact Hnd|].
  unfold spread. cbn [fold_left fst snd]. fold (spread (set_prop k1 v1 a) b).
  apply IH, nodup_set_prop, Hnd.
Qed.

(** What the JSON text keeps of an object with distinct keys. *)
Lemma get_prop_json_props_absent k (o : JsObject) :
  get_prop k o = None -> get_prop k (json_props o) = None.
Proof.
  induction o as [|[k' x] o IH]; [reflexivity|]. cbn [get_prop].
  destruct (String.eqb k k') eqn:E; [discriminate|]. intros Hnone.
  change ((k', x) :: o) with ([(k', x)] ++ o).
  rewrite FileFormatProofs.json_props_app, get_prop_app, (IH Hnone).
  destruct x; cbn; rewrite ?E; reflexivity.
Qed.

Lemma get_prop_json_props k (o : JsObject) :
  List.NoDup (keys o) ->
  get_prop k (json_props o) = match get_prop k o with
                              | Some v => json_field v
                              | None => None
                              end.
Proof.
  induction o as [|[k' x] o IH]; intros Hnd; [reflexivity|].
  cbn [keys map fst] in Hnd. inversion Hnd as [|? ? Hk Hnd']; subst.
  change ((k', x) :: o) with ([(k', x)] ++ o).
  rewrite FileFormatProofs.json_props_app, get_prop_app.
  change (get_prop k ([(k', x)] ++ o))
    with (if String.eqb k k' then Some x else get_prop k o).
  destruct (String.eqb k k') eqn:E; cbv beta iota.
  - apply String.eqb_eq in E. subst k'.
    assert (Hnone : get_prop k (json_props o) = None)
      by (apply get_prop_json_props_absent, get_none_not_key; exact Hk).
    destruct x; cbn; rewrite ?String.eqb_refl; try reflexivity. exact Hnone.
  - rewrite <- (IH Hnd'). destruct x; cbn; rewrite ?E; reflexivity.
Qed.

Lemma get_prop_rest_props named k (o : JsObject) :
  get_prop k (rest_props named o) =
  if existsb (String.eqb k) named then None else get_prop k o.
Proof.
  unfold rest_props.
  induction o as [|[k' x] o IH]; cbn [List.filter get_prop fst].
  - destruct (existsb _ named); reflexivity.
  - destruct (String.eqb k k') eqn:E.
    + apply String.eqb_eq in E. subst k'.
      destruct (existsb (String.eqb k) named) eqn:En; cbn [negb].
      * exact IH.
      * cbn [get_prop]. rewrite String.eqb_refl. reflexivity.
    + destruct (negb (existsb (String.eqb k') named)); cbn [get_prop]; rewrite ?E; exact IH.
Qed.

End ObjectFacts.

(** * Further properties of the logger service *)

Module ServiceCoverage.
Import Js Json WinstonConfig LoggerService Coverage ServiceProofs ObjectFacts.

(** What a call on the service does. *)
Lemma service_step_emits this b c :
  is_setContext c = false ->
  exists call,
    service_step (this, b) c =
      (this, <[logger this := calls_of (logger this) b ++ [call]]> b)
    /\ call_context call = Some (opt_js (or_else (explicit_context c) (currentContext this)))
    /\ (forall name, service_method c = Some name ->
        record_get name nestToWinstonLogLevel = Some (call_level call)).
Proof.
  destruct c; try discriminate; intros _; eexists;
    (split; [reflexivity|]); (split; [|intros name [= <-]; reflexivity]);
    unfold call_context; cbn [call_meta explicit_context]; try reflexivity.
  apply with_trace_context.
Qed.

Lemma service_step_setContext this b c :
  is_setContext c = true ->
  exists ctx, c = SSetContext ctx /\ service_step (this, b) c = (Service.setContext ctx this, b).
Proof. destruct c; try discriminate. intros _. eexists. split; reflexivity. Qed.

Lemma service_run_app cs1 cs2 st :
  service_run (cs1 ++ cs2) st = service_run cs2 (service_run cs1 st).
Proof. unfold service_run. apply fold_left_app. Qed.

Lemma service_run_keeps_context cs : forall st,
  Forall (fun x => is_setContext x = false) cs ->
  fst (service_run cs st) = fst st.
Proof.
  induction cs as [|c cs IH]; intros [this b] Hall; [reflexivity|].
  inversion Hall as [|? ? Hc Hrest]; subst.
  destruct (service_step_emits this b c Hc) as (call & Hstep & _).
  cbn [service_run fold_left]. rewrite Hstep.
  unfold service_run in IH. rewrite (IH _ Hrest). reflexivity.
Qed.

(** X10. Each severity method of the service and of the child logs at the
    Winston level [nestToWinstonLogLevel] gives for its name; [setContext]
    logs nothing. *)
Theorem X10_methods_follow_level_table
    (this : ReusableLoggerService) (child : ReusableChildLogger)
    (b : gmap nat (list LogCall)) (c : ServiceCall) (cc : ChildCall) :
  match service_method c with
  | Some name =>
      exists call,
        calls_of (logger this) (snd (service_step (this, b) c)) =
          calls_of (logger this) b ++ [call]
        /\ record_get name nestToWinstonLogLevel = Some (call_level call)
  | None => snd (service_step (this, b) c) = b
  end
  /\ exists call,
       calls_of (winstonLoggerInstance child) (child_step child b cc) =
         calls_of (winstonLoggerInstance child) b ++ [call]
       /\ record_get (child_method cc) nestToWinstonLogLevel = Some (call_level call).
Proof.
  split.
  - destruct c; cbn [service_method service_step snd]; try reflexivity;
      eexists; (split; [apply calls_of_winston_call|reflexivity]).
  - destruct cc; cbn [child_method child_step];
      eexists; (split; [apply calls_of_winston_call|reflexivity]).
Qed.

(** X11. After [setContext(ctx)], and until the next [setContext], every
    severity call that passes no context (or an empty one) is logged under
    [ctx], whatever the service was called with before. *)
Theorem X11_latest_setContext_is_used
    (this : ReusableLoggerService) (b : gmap nat (list LogCall))
    (cs1 cs2 : list ServiceCall) (ctx : string) (c : ServiceCall) :
  Forall (fun x => is_setContext x = false) cs2 ->
  is_setContext c = false ->
  or_else (explicit_context c) None = None ->
  exists call,
    calls_of (logger this)
      (snd (service_run (cs1 ++ SSetContext ctx :: cs2 ++ [c]) (this, b)))
    = calls_of (logger this)
        (snd (service_run (cs1 ++ SSetContext ctx :: cs2) (this, b))) ++ [call]
    /\ call_context call = Some (JStr ctx).
Proof.
  intros Hcs2 Hc Hnone.
  change (SSetContext ctx :: cs2 ++ [c]) with ((SSetContext ctx :: cs2) ++ [c]).
  rewrite List.app_assoc, (service_run_app (cs1 ++ SSetContext ctx :: cs2) [c]).
  set (st := service_run (cs1 ++ SSetContext ctx :: cs2) (this, b)).
  assert (Hctx : currentContext (fst st) = Some ctx /\ logger (fst st) = logger this).
  { unfold st. rewrite service_run_app. split.
    - change (SSetContext ctx :: cs2) with ([SSetContext ctx] ++ cs2).
      rewrite service_run_app, (service_run_keeps_context cs2 _ Hcs2).
      destruct (service_run cs1 (this, b)) as [this1 b1]. reflexivity.
    - rewrite !service_run_logger. reflexivity. }
  destruct Hctx as [Hctx Hlog].
  destruct st as [this2 b2]. cbn [fst snd] in *.
  destruct (service_step_emits this2 b2 c Hc) as (call & Hstep & Hcall & _).
  exists call. cbn [service_run fold_left]. rewrite Hstep. cbn [snd]. split.
  - rewrite Hlog. unfold calls_of at 1. rewrite lookup_insert_eq. reflexivity.
  - rewrite Hcall, Hctx.
    destruct (explicit_context c) as [e|]; [|reflexivity].
    cbn in Hnone |- *. destruct (String.eqb e ""); [reflexivity|discriminate].
Qed.

Lemma X11_latest_setContext_witness :
  exists call,
    calls_of 0%nat
      (snd (service_run ([SSetContext "A"] ++ SSetContext "B" ::
                         [SWarn (JStr "w") (Some "Other") []] ++
                         [SLog (JStr "m") (Some "") []]) (orders_service, ∅)))
    = calls_of 0%nat
        (snd (service_run ([SSetContext "A"] ++ SSetContext "B" ::
                           [SWarn (JStr "w") (Some "Other") []]) (orders_service, ∅)))
      ++ [call]
    /\ call_context call = Some (JStr "B").
Proof.
  apply (X11_latest_setContext_is_used orders_service ∅ [SSetContext "A"]
           [SWarn (JStr "w") (Some "Other") []] "B" (SLog (JStr "m") (Some "") [])).
  - repeat constructor.
  - reflexivity.
  - reflexivity.
Defined.

(** X12. A run of calls on a service appends to the log of its own logger,
    one call per severity call and none per [setContext], in the order of
    the calls; it never rewrites what was logged and never touches another
    logger. *)
Theorem X12_calls_are_appended
    (cs : list ServiceCall) (this : ReusableLoggerService) (b : gmap nat (list LogCall)) :
  logger (fst (service_run cs (this, b))) = logger this
  /\ (exists news,
        calls_of (logger this) (snd (service_run cs (this, b))) =
          calls_of (logger this) b ++ news
        /\ length news = length (List.filter (fun c => negb (is_setContext c)) cs)
        /\ map Some (map call_level news) =
             map (fun name => record_get name nestToWinstonLogLevel)
                 (flat_map (fun c => match service_method c with
                                     | Some name => [name]
                                     | None => []
                                     end) cs))
  /\ (forall lg, lg <> logger this ->
      calls_of lg (snd (service_run cs (this, b))) = calls_of lg b).
Proof.
  revert this b. induction cs as [|c cs IH]; intros this b.
  - split; [reflexivity|]. split; [|reflexivity].
    exists []. rewrite app_nil_r. repeat split.
  - cbn [service_run fold_left]. fold (service_run cs (service_step (this, b) c)).
    destruct (is_setContext c) eqn:Hc.
    + destruct (service_step_setContext this b c Hc) as (ctx & -> & Hstep).
      rewrite Hstep. destruct (IH (Service.setContext ctx this) b) as (Hl & Hn & Ho).
      cbn [logger Service.setContext] in *. split; [exact Hl|]. split; [|exact Ho].
      destruct Hn as (news & Hcalls & Hlen & Hlv). exists news. auto.
    + destruct (service_step_emits this b c Hc) as (call & Hstep & _ & Hname).
      rewrite Hstep. set (b1 := <[logger this := calls_of (logger this) b ++ [call]]> b).
      destruct (IH this b1) as (Hl & (news & Hcalls & Hlen & Hlv) & Ho).
      split; [exact Hl|]. split.
      * exists (call :: news). rewrite Hcalls. unfold b1, calls_of at 1.
        rewrite lookup_insert_eq. change (default [] (Some ?l)) with l.
        rewrite <- List.app_assoc. split; [reflexivity|].
        cbn [List.filter flat_map]. rewrite Hc. cbn [negb length]. split; [lia|].
        destruct c; try discriminate; cbn [service_method app map];
          rewrite Hlv, (Hname _ eq_refl); reflexivity.
      * intros lg Hne. rewrite (Ho lg Hne). unfold b1, calls_of.
        rewrite lookup_insert_ne by congruence. reflexivity.
Qed.

(** X13. [connection] logs one call under the context ["ConnectionMonitor"],
    whatever the context of the service: at level error for the status
    error, warn for disconnected, info for connected. The message is a mark,
    the service name and the message given, or the status name when the
    message is absent or empty; the error case attaches neither stack nor
    trace. *)
Theorem X13_connection_status
    (this : ReusableLoggerService) (b : gmap nat (list LogCall)) (service : string)
    (status : Service.ConnectionStatus) (message : option string) (meta : JsValue) :
  exists call mark,
    calls_of (logger this) (Service.connection this service status message meta b) =
      calls_of (logger this) b ++ [call]
    /\ call_level call = status_level status
    /\ call_context call = Some (JStr "ConnectionMonitor")
    /\ call_message call =
         JStr (mark +:+ " " +:+ service +:+ " "
               +:+ or_string message (Service.status_name status))
    /\ call_meta call = [("context", JStr "ConnectionMonitor"); ("meta", JArr [meta])].
Proof.
  destruct status; unfold Service.connection, Service.log, Service.warn,
    Service.severity, Service.error; rewrite calls_of_winston_call;
    eexists _, _; repeat split.
Qed.

(** X14. [mqtt], [redis] and [influxdb] log one call at the level given,
    under their fixed context, whatever the context of the service. A
    payload that is truthy is attached under the helper's key; a falsy
    payload (absent, [null], [0], the empty string, [false]) is
    dropped. *)
Theorem X14_domain_helpers
    (this : ReusableLoggerService) (b : gmap nat (list LogCall))
    (level : Service.DomainLevel) (message : string) (data : JsValue) :
  calls_of (logger this) (Service.mqtt this level message data b) =
    calls_of (logger this) b ++ [domain_entry "MqttService" "mqttData" level message data]
  /\ calls_of (logger this) (Service.redis this level message data b) =
    calls_of (logger this) b ++ [domain_entry "RedisService" "redisData" level message data]
  /\ calls_of (logger this) (Service.influxdb this level message data b) =
    calls_of (logger this) b
    ++ [domain_entry "InfluxdbService" "influxdbData" level message data].
Proof.
  unfold Service.mqtt, Service.redis, Service.influxdb, domain_entry.
  rewrite !calls_of_winston_call. destruct (truthy data); repeat split.
Qed.

(** X15. [performance] logs one call at level debug. In its meta object the
    own properties of the [meta] argument override [context], [operation]
    and [duration]; a property [meta] does not have keeps the value from the
    arguments, the context defaulting to ["Performance"] and never to the
    context of the service. *)
Theorem X15_performance_fields
    (this : ReusableLoggerService) (b : gmap nat (list LogCall)) (operation : string)
    (duration : Z) (ctx : option string) (meta : JsValue) :
  List.NoDup (keys (own_props meta)) ->
  exists call,
    calls_of (logger this) (Service.performance this operation duration ctx meta b) =
      calls_of (logger this) b ++ [call]
    /\ call_level call = "debug"
    /\ forall k,
         get_prop k (call_meta call) =
         overridden [("context", JStr (or_string ctx "Performance"));
                     ("operation", JStr operation);
                     ("duration", JNum duration)]
                    (own_props meta) k.
Proof.
  intros Hnd. unfold Service.performance. rewrite calls_of_winston_call.
  eexists. split; [reflexivity|]. split; [reflexivity|].
  intros k. cbn [call_meta]. apply get_prop_spread, Hnd.
Qed.

Lemma X15_performance_fields_witness :
  exists call,
    calls_of 0%nat
      (Service.performance orders_service "sync" 12 None
         (JObj [("duration", JStr "n/a"); ("rows", JNum 3)]) ∅) =
      calls_of 0%nat ∅ ++ [call]
    /\ call_level call = "debug"
    /\ forall k,
         get_prop k (call_meta call) =
         overridden [("context", JStr "Performance");
                     ("operation", JStr "sync");
                     ("duration", JNum 12)]
                    [("duration", JStr "n/a"); ("rows", JNum 3)] k.
Proof.
  apply (X15_performance_fields orders_service ∅ "sync" 12 None
           (JObj [("duration", JStr "n/a"); ("rows", JNum 3)])).
  cbv [keys own_props map fst]. repeat constructor; cbn; intuition discriminate.
Defined.

(** X16. [startup] logs at level info under the context ["Bootstrap"], and
    [dataProcessing] at level debug under the context given or
    ["DataProcessing"], neither under the context of the service. Each
    passes one metadata item: [startup] its [meta] argument, [undefined]
    included; [dataProcessing] an object in which the own properties of
    [meta] override [operation] and [count]. *)
Theorem X16_startup_and_dataProcessing
    (this : ReusableLoggerService) (b : gmap nat (list LogCall)) (message operation : string)
    (count : Z) (ctx : option string) (meta : JsValue) :
  List.NoDup (keys (own_props meta)) ->
  (exists call,
     calls_of (logger this) (Service.startup this message meta b) =
       calls_of (logger this) b ++ [call]
     /\ call_level call = "info"
     /\ call_message call = JStr ("🚀 " +:+ message)
     /\ call_meta call = [("context", JStr "Bootstrap"); ("meta", JArr [meta])])
  /\ (exists call fields,
       calls_of (logger this) (Service.dataProcessing this operation count ctx meta b) =
         calls_of (logger this) b ++ [call]
       /\ call_level call = "debug"
       /\ call_meta call =
            [("context", JStr (or_string ctx "DataProcessing")); ("meta", JArr [JObj fields])]
       /\ forall k,
            get_prop k fields =
            overridden [("operation", JStr operation); ("count", JNum count)]
                       (own_props meta) k).
Proof.
  intros Hnd. split.
  - unfold Service.startup, Service.log, Service.severity. rewrite calls_of_winston_call.
    eexists. repeat split.
  - unfold Service.dataProcessing, Service.debug, Service.severity.
    rewrite calls_of_winston_call. eexists _, _. split; [reflexivity|].
    split; [reflexivity|]. split.
    + cbn [call_meta meta_object or_else]. unfold meta_object.
      destruct (String.eqb (or_string ctx "DataProcessing") "") eqn:E; [|reflexivity].
      apply String.eqb_eq in E. exfalso.
      revert E. apply ConfigProofs.or_string_nonempty. discriminate.
    + intros k. apply get_prop_spread, Hnd.
Qed.

Lemma X16_startup_and_dataProcessing_witness :
  (exists call,
     calls_of 0%nat (Service.startup orders_service "ready" (JObj [("count", JNum 41)]) ∅) =
       calls_of 0%nat ∅ ++ [call]
     /\ call_level call = "info"
     /\ call_message call = JStr ("🚀 " +:+ "ready")
     /\ call_meta call =
          [("context", JStr "Bootstrap"); ("meta", JArr [JObj [("count", JNum 41)]])])
  /\ (exists call fields,
       calls_of 0%nat
         (Service.dataProcessing orders_service "import" 40 (Some "")
            (JObj [("count", JNum 41)]) ∅) =
         calls_of 0%nat ∅ ++ [call]
       /\ call_level call = "debug"
       /\ call_meta call =
            [("context", JStr "DataProcessing"); ("meta", JArr [JObj fields])]
       /\ forall k,
            get_prop k fields =
            overridden [("operation", JStr "import"); ("count", JNum 40)]
                       [("count", JNum 41)] k).
Proof.
  apply (X16_startup_and_dataProcessing orders_service ∅ "ready" "import" 40 (Some "")
           (JObj [("count", JNum 41)])).
  cbv [keys own_props map fst]. repeat constructor; cbn; intuition discriminate.
Defined.

(** X17. The helpers never read the context of the service: two services
    on the same logger, whatever their contexts, log the same calls through
    [mqtt], [redis], [influxdb], [performance], [startup], [connection] and
    [dataProcessing]. *)
Theorem X17_helpers_ignore_setContext
    (this other : ReusableLoggerService) (b : gmap nat (list LogCall))
    (level : Service.DomainLevel) (status : Service.ConnectionStatus)
    (text service : string) (n : Z) (ctx message : option string) (data : JsValue) :
  logger this = logger other ->
  Service.mqtt this level text data b = Service.mqtt other level text data b
  /\ Service.redis this level text data b = Service.redis other level text data b
  /\ Service.influxdb this level text data b = Service.influxdb other level text data b
  /\ Service.performance this text n ctx data b = Service.performance other text n ctx data b
  /\ Service.startup this text data b = Service.startup other text data b
  /\ Service.connection this service status message data b =
      Service.connection other service status message data b
  /\ Service.dataProcessing this text n ctx data b =
      Service.dataProcessing other text n ctx data b.
Proof.
  intros Hlog.
  unfold Service.mqtt, Service.redis, Service.influxdb, Service.performance,
    Service.startup, Service.connection, Service.dataProcessing, Service.log,
    Service.warn, Service.debug, Service.error, Service.severity.
  rewrite Hlog. repeat split; try reflexivity.
  cbn [or_else].
  destruct (String.eqb (or_string ctx "DataProcessing") "") eqn:E; [|reflexivity].
  apply String.eqb_eq in E. exfalso.
  revert E. apply ConfigProofs.or_string_nonempty. discriminate.
Qed.

Lemma X17_helpers_ignore_setContext_witness :
  Service.mqtt orders_service Service.LevelWarn "m" JNull ∅ =
    Service.mqtt (Service.setContext "Billing" orders_service) Service.LevelWarn "m" JNull ∅
  /\ Service.redis orders_service Service.LevelWarn "m" JNull ∅ =
     Service.redis (Service.setContext "Billing" orders_service) Service.LevelWarn "m" JNull ∅
  /\ Service.influxdb orders_service Service.LevelWarn "m" JNull ∅ =
     Service.influxdb (Service.setContext "Billing" orders_service)
       Service.LevelWarn "m" JNull ∅
  /\ Service.performance orders_service "m" 3 None JNull ∅ =
     Service.performance (Service.setContext "Billing" orders_service) "m" 3 None JNull ∅
  /\ Service.startup orders_service "m" JNull ∅ =
     Service.startup (Service.setContext "Billing" orders_service) "m" JNull ∅
  /\ Service.connection orders_service "Database" Service.Disconnected None JNull ∅ =
     Service.connection (Service.setContext "Billing" orders_service)
       "Database" Service.Disconnected None JNull ∅
  /\ Service.dataProcessing orders_service "m" 3 None JNull ∅ =
     Service.dataProcessing (Service.setContext "Billing" orders_service) "m" 3 None JNull ∅.
Proof.
  apply (X17_helpers_ignore_setContext orders_service
           (Service.setContext "Billing" orders_service) ∅ Service.LevelWarn
           Service.Disconnected "m" "Database" 3 None None JNull).
  reflexivity.
Defined.

(** X18. A child made for a non-empty context behaves as the service
    called with that context passed explicitly: each of its five methods
    logs exactly what the service's method of the same name logs when given
    the child's context. (With the empty context they differ: the service
    falls back to its own context.) *)
Theorem X18_child_is_service_with_explicit_context
    (this : ReusableLoggerService) (b : gmap nat (list LogCall)) (ctx : string)
    (c : ChildCall) :
  ctx <> "" ->
  child_step (Service.createChildLogger this ctx) b c =
  snd (service_step (this, b) (with_context ctx c)).
Proof.
  intros Hne. apply String.eqb_neq in Hne.
  destruct c; cbn [child_step with_context service_step snd];
    unfold Child.log, Child.warn, Child.debug, Child.verbose, Child.error, Child.severity,
      Service.log, Service.warn, Service.debug, Service.verbose, Service.error,
      Service.severity, Service.createChildLogger;
    cbn [winstonLoggerInstance context or_else]; rewrite Hne; reflexivity.
Qed.

Lemma X18_child_is_service_witness :
  child_step (Service.createChildLogger orders_service "Payments") ∅
    (CError (JStr "declined") (StringTrace "at pay()") [JNum 7])
  = snd (service_step (orders_service, ∅)
           (with_context "Payments"
              (CError (JStr "declined") (StringTrace "at pay()") [JNum 7]))).
Proof.
  apply (X18_child_is_service_with_explicit_context orders_service ∅ "Payments").
  discriminate.
Defined.

End ServiceCoverage.

(** * Further properties of the file format *)

Module FileFormatCoverage.
Import Js Json FileFormat Coverage JsonProofs ObjectFacts.

Lemma printf_template_log_entry info lvl :
  get_prop "level" info = Some (JStr lvl) ->
  printf_template info = JSON_stringify (JObj (log_entry info lvl)).
Proof.
  intros Hlvl. unfold printf_template, log_entry. cbv zeta.
  assert (Hl : prop info "level" = JStr lvl) by (unfold prop; rewrite Hlvl; reflexivity).
  rewrite Hl. reflexivity.
Qed.

(** The line the template returns parses as the logged object. *)
Lemma printf_template_parses info lvl :
  get_prop "level" info = Some (JStr lvl) ->
  exists text,
    printf_template info = Some text
    /\ JSON_parse text = Some (JObj (json_props (log_entry info lvl))).
Proof.
  intros Hlvl. rewrite (printf_template_log_entry info lvl Hlvl).
  destruct (stringify_defined (JObj (log_entry info lvl)) ltac:(discriminate)) as (t & Ht).
  pose proof (JSON_parse_stringify (JObj (log_entry info lvl)) (string_of_list_ascii t)) as Hp.
  unfold JSON_stringify in *. rewrite Ht in *. cbn [option_map] in *.
  eexists. split; [reflexivity|]. exact (Hp eq_refl).
Qed.

Lemma log_entry_nodup info lvl : List.NoDup (keys (log_entry info lvl)).
Proof.
  unfold log_entry. cbv zeta.
  assert (H0 : List.NoDup (keys [("timestamp", prop info "timestamp");
                                 ("level", JStr (toUpperCase lvl));
                                 ("message", prop info "message")])).
  { cbn. repeat constructor; cbn; intuition discriminate. }
  repeat match goal with
         | |- List.NoDup (keys (if ?c then _ else _)) => destruct c
         | |- List.NoDup (keys (set_prop _ _ _)) => apply nodup_set_prop
         | |- List.NoDup (keys (spread _ _)) => apply nodup_spread
         end; exact H0.
Qed.

Lemma meta_lacks_destructured info k :
  existsb (String.eqb k) destructured = true ->
  get_prop k (rest_props destructured info) = None.
Proof. intros H. rewrite get_prop_rest_props, H. reflexivity. Qed.

(** A property of the logged object, step by step. *)
Lemma log_entry_get info lvl k :
  (existsb (String.eqb k) destructured = true \/ List.NoDup (keys info)) ->
  get_prop k (log_entry info lvl) =
  if String.eqb k "stack"
  then (if truthy (prop info "stack") then Some (prop info "stack") else None)
  else if String.eqb k "context"
  then (if truthy (prop info "context") then Some (prop info "context") else None)
  else match get_prop k (rest_props destructured info) with
       | Some v => Some v
       | None =>
           get_prop k [("timestamp", prop info "timestamp");
                       ("level", JStr (toUpperCase lvl));
                       ("message", prop info "message")]
       end.
Proof.
  intros Hk. unfold log_entry. cbv zeta.
  set (meta := rest_props destructured info).
  set (base := [("timestamp", prop info "timestamp"); ("level", JStr (toUpperCase lvl));
                ("message", prop info "message")]).
  set (e1 := if truthy (prop info "context")
             then set_prop "context" (prop info "context") base else base).
  set (e2 := if truthy (JObj meta) && (0 <? length (keys meta))%nat
             then spread e1 meta else e1).
  assert (H1 : forall k', get_prop k' e1 =
                          if String.eqb k' "context"
                          then (if truthy (prop info "context")
                                then Some (prop info "context") else None)
                          else get_prop k' base).
  { intros k'. unfold e1. destruct (String.eqb k' "context") eqn:E.
    - apply String.eqb_eq in E. subst k'.
      destruct (truthy (prop info "context")); [apply get_prop_set_same|reflexivity].
    - apply String.eqb_neq in E.
      destruct (truthy (prop info "context")); [apply get_prop_set_other, E|reflexivity]. }
  assert (H2 : get_prop k e2 = match get_prop k meta with
                               | Some v => Some v
                               | None => get_prop k e1
                               end).
  { unfold e2. destruct (truthy (JObj meta) && (0 <? length (keys meta))%nat) eqn:E.
    - destruct Hk as [Hk|Hnd].
      + assert (Hm : get_prop k meta = None) by (apply meta_lacks_destructured, Hk).
        rewrite Hm. apply get_prop_spread_absent, Hm.
      + apply (get_prop_spread meta e1 k).
        apply FileFormatProofs.rest_props_nodup, Hnd.
    - destruct meta as [|m meta']; [reflexivity|discriminate E]. }
  assert (Hms : get_prop "stack" meta = None /\ get_prop "context" meta = None)
    by (split; apply meta_lacks_destructured; reflexivity).
  destruct Hms as [Hms Hmc].
  destruct (String.eqb k "stack") eqn:Es.
  - apply String.eqb_eq in Es. subst k.
    destruct (truthy (prop info "stack")); [apply get_prop_set_same|].
    rewrite H2, Hms, H1. reflexivity.
  - assert (He3 : get_prop k (if truthy (prop info "stack")
                              then set_prop "stack" (prop info "stack") e2 else e2)
                  = get_prop k e2).
    { apply String.eqb_neq in Es.
      destruct (truthy (prop info "stack")); [apply get_prop_set_other, Es|reflexivity]. }
    rewrite He3, H2, H1.
    destruct (String.eqb k "context") eqn:Ec; [|reflexivity].
    apply String.eqb_eq in Ec. subst k. rewrite Hmc. reflexivity.
Qed.

(** X19. Whatever its other properties are called, the record of an info
    object whose level is a string has that level upper-cased under
    [level], and under [timestamp] and [message] what the info object has
    there: metadata cannot replace these three fields. *)
Theorem X19_reserved_fields_are_kept (info : JsObject) (lvl : string) :
  get_prop "level" info = Some (JStr lvl) ->
  exists text fields,
    printf_template info = Some text
    /\ JSON_parse text = Some (JObj fields)
    /\ get_prop "level" fields = Some (JStr (toUpperCase lvl))
    /\ get_prop "timestamp" fields = written_field info "timestamp"
    /\ get_prop "message" fields = written_field info "message".
Proof.
  intros Hlvl. destruct (printf_template_parses info lvl Hlvl) as (text & Ht & Hp).
  exists text, (json_props (log_entry info lvl)). split; [exact Ht|]. split; [exact Hp|].
  rewrite !(get_prop_json_props _ _ (log_entry_nodup info lvl)).
  rewrite !log_entry_get by (left; reflexivity).
  rewrite !meta_lacks_destructured by reflexivity.
  cbn [String.eqb Ascii.eqb Bool.eqb get_prop json_field to_json].
  unfold written_field, prop.
  repeat split; [destruct (get_prop "timestamp" info)|destruct (get_prop "message" info)];
    reflexivity.
Qed.

Lemma X19_reserved_fields_witness :
  exists text fields,
    printf_template multiline_info = Some text
    /\ JSON_parse text = Some (JObj fields)
    /\ get_prop "level" fields = Some (JStr (toUpperCase "warn"))
    /\ get_prop "timestamp" fields = written_field multiline_info "timestamp"
    /\ get_prop "message" fields = written_field multiline_info "message".
Proof. apply (X19_reserved_fields_are_kept multiline_info "warn"). reflexivity. Defined.

(** X20. Every property of the info object outside the five the template
    names is written under its own key with its own value as JSON renders
    it, array indices included, and the record has no other field: nothing
    is lost but [undefined] values, and nothing is invented. *)
Theorem X20_metadata_is_written_as_it_is (info : JsObject) (lvl : string) :
  List.NoDup (keys info) ->
  get_prop "level" info = Some (JStr lvl) ->
  exists text fields,
    printf_template info = Some text
    /\ JSON_parse text = Some (JObj fields)
    /\ forall k,
         existsb (String.eqb k) destructured = false ->
         get_prop k fields = written_field info k.
Proof.
  intros Hnd Hlvl. destruct (printf_template_parses info lvl Hlvl) as (text & Ht & Hp).
  exists text, (json_props (log_entry info lvl)). split; [exact Ht|]. split; [exact Hp|].
  intros k Hk. rewrite (get_prop_json_props _ _ (log_entry_nodup info lvl)).
  rewrite log_entry_get by (right; exact Hnd).
  rewrite get_prop_rest_props, Hk. unfold written_field.
  cbn in Hk. repeat (apply orb_false_elim in Hk as [? Hk]).
  cbn [get_prop].
  repeat match goal with H : String.eqb k _ = false |- _ => rewrite H; clear H end.
  destruct (get_prop k info); reflexivity.
Qed.

Lemma X20_metadata_witness :
  exists text fields,
    printf_template multiline_info = Some text
    /\ JSON_parse text = Some (JObj fields)
    /\ forall k,
         existsb (String.eqb k) destructured = false ->
         get_prop k fields = written_field multiline_info k.
Proof.
  apply (X20_metadata_is_written_as_it_is multiline_info "warn").
  - cbv [keys multiline_info map fst]. repeat constructor; cbn; intuition discriminate.
  - reflexivity.
Defined.

(** X21. The record has a [context] field exactly when the context of the
    info object is truthy, and a [stack] field exactly when its stack is:
    an empty string, like an absent value, leaves the field out. *)
Theorem X21_context_and_stack_when_truthy (info : JsObject) (lvl : string) :
  get_prop "level" info = Some (JStr lvl) ->
  exists text fields,
    printf_template info = Some text
    /\ JSON_parse text = Some (JObj fields)
    /\ get_prop "context" fields =
         (if truthy (prop info "context") then Some (to_json (prop info "context")) else None)
    /\ get_prop "stack" fields =
         (if truthy (prop info "stack") then Some (to_json (prop info "stack")) else None).
Proof.
  intros Hlvl. destruct (printf_template_parses info lvl Hlvl) as (text & Ht & Hp).
  exists text, (json_props (log_entry info lvl)). split; [exact Ht|]. split; [exact Hp|].
  rewrite !(get_prop_json_props _ _ (log_entry_nodup info lvl)).
  rewrite !log_entry_get by (left; reflexivity).
  cbn [String.eqb Ascii.eqb Bool.eqb].
  assert (Hfield : forall v,
             match (if truthy v then Some v else None) with
             | Some x => json_field x
             | None => None
             end = if truthy v then Some (to_json v) else None).
  { intros v. destruct (truthy v) eqn:E; [|reflexivity].
    destruct v; try discriminate E; reflexivity. }
  rewrite !Hfield. split; reflexivity.
Qed.

Lemma X21_context_and_stack_witness :
  exists text fields,
    printf_template multiline_info = Some text
    /\ JSON_parse text = Some (JObj fields)
    /\ get_prop "context" fields =
         (if truthy (prop multiline_info "context")
          then Some (to_json (prop multiline_info "context")) else None)
    /\ get_prop "stack" fields =
         (if truthy (prop multiline_info "stack")
          then Some (to_json (prop multiline_info "stack")) else None).
Proof. apply (X21_context_and_stack_when_truthy multiline_info "warn"). reflexivity. Defined.

(** Every character [stringify] writes is printable. *)
Lemma escape_char_printable c : Forall (fun x => printable x = true) (escape_char c).
Proof. destruct c as [[] [] [] [] [] [] [] []]; repeat constructor. Qed.

Lemma quote_printable s : Forall (fun x => printable x = true) (quote s).
Proof.
  unfold quote. constructor; [reflexivity|]. apply List.Forall_app. split.
  - induction s as [|c s IH]; cbn [quote_body]; [constructor|].
    apply List.Forall_app. split; [apply escape_char_printable|exact IH].
  - constructor; [reflexivity|constructor].
Qed.

Lemma digit_printable c : is_digit c = true -> printable c = true.
Proof. destruct c as [[] [] [] [] [] [] [] []]; intros H; try reflexivity; discriminate H. Qed.

Lemma number_text_printable n : Forall (fun x => printable x = true) (number_text n).
Proof.
  assert (Hd : forall u, Forall (fun x => printable x = true)
                           (list_ascii_of_string (NilZero.string_of_uint u))).
  { intros u. eapply List.Forall_impl; [|apply nilzero_digits].
    intros c Hc. apply digit_printable, Hc. }
  unfold number_text. destruct n as [|p|p]; cbn [Z.to_int NilZero.string_of_int].
  - apply Hd.
  - apply Hd.
  - cbn [list_ascii_of_string]. constructor; [reflexivity|apply Hd].
Qed.

Lemma join_printable pieces :
  (forall x, In x pieces -> Forall (fun c => printable c = true) x) ->
  Forall (fun c => printable c = true) (join pieces).
Proof.
  induction pieces as [|x [|y l] IH]; intros Hall.
  - constructor.
  - apply Hall. left; reflexivity.
  - rewrite join_cons. apply List.Forall_app. split; [apply Hall; left; reflexivity|].
    constructor; [reflexivity|]. apply IH. intros z Hz. apply Hall. right; exact Hz.
Qed.

Lemma stringify_printable v : forall t,
  stringify v = Some t -> Forall (fun c => printable c = true) t.
Proof.
  induction v as [| |b|n|s|items IH|props IH] using JsValue_nested_ind;
    intros t Hs; cbn [stringify] in Hs; try discriminate Hs;
    try (destruct b); injection Hs as <-.
  - repeat constructor.
  - repeat constructor.
  - repeat constructor.
  - apply number_text_printable.
  - apply quote_printable.
  - constructor; [reflexivity|]. apply List.Forall_app. split; [|repeat constructor].
    apply join_printable. intros x Hx. apply in_map_iff in Hx as (i & <- & Hi).
    rewrite List.Forall_forall in IH. specialize (IH i Hi).
    destruct (stringify i) as [ti|]; [apply IH; reflexivity|repeat constructor].
  - constructor; [reflexivity|]. apply List.Forall_app. split; [|repeat constructor].
    apply join_printable. intros x Hx. apply in_flat_map in Hx as ([k y] & Hp & Hx).
    rewrite List.Forall_forall in IH. specialize (IH (k, y) Hp). cbn [snd] in IH.
    destruct (stringify y) as [ty|]; [|destruct Hx].
    destruct Hx as [<-|[]].
    change (Forall (fun c => printable c = true) (quote k ++ ":"%char :: ty)).
    apply List.Forall_app. split; [apply quote_printable|].
    constructor; [reflexivity|]. apply IH. reflexivity.
Qed.

(** X22. The line written for an info object has no control character, so
    no line break, whatever line breaks its message, context and metadata
    hold: one record is one line. *)
Theorem X22_record_is_one_line (info : JsObject) (lvl : string) :
  get_prop "level" info = Some (JStr lvl) ->
  exists text,
    printf_template info = Some text
    /\ Forall (fun c => printable c = true) (list_ascii_of_string text)
    /\ ~ In "010"%char (list_ascii_of_string text)
    /\ ~ In "013"%char (list_ascii_of_string text).
Proof.
  intros Hlvl. rewrite (printf_template_log_entry info lvl Hlvl).
  destruct (stringify_defined (JObj (log_entry info lvl)) ltac:(discriminate)) as (t & Ht).
  unfold JSON_stringify. rewrite Ht. cbn [option_map].
  eexists. split; [reflexivity|]. rewrite list_ascii_of_string_of_list_ascii.
  pose proof (stringify_printable _ t Ht) as Hall. split; [exact Hall|].
  rewrite List.Forall_forall in Hall.
  split; intros Hin; apply Hall in Hin; discriminate Hin.
Qed.

Lemma X22_record_is_one_line_witness :
  exists text,
    printf_template multiline_info = Some text
    /\ Forall (fun c => printable c = true) (list_ascii_of_string text)
    /\ ~ In "010"%char (list_ascii_of_string text)
    /\ ~ In "013"%char (list_ascii_of_string text).
Proof. apply (X22_record_is_one_line multiline_info "warn"). reflexivity. Defined.

(** X23. An info object whose level is missing, or is undefined, null, a
    boolean, a number, an array or an object of data, gets no line:
    [level.toUpperCase()] raises its [TypeError] before anything is
    written, whatever else the object holds. *)
Theorem X23_template_fails_without_level (info : JsObject) :
  (forall lvl, get_prop "level" info <> Some (JStr lvl)) ->
  printf_template info = None.
Proof.
  intros Hno. unfold printf_template, prop.
  destruct (get_prop "level" info) as [[| | | |s| |]|]; try reflexivity.
  exfalso. exact (Hno s eq_refl).
Qed.

Lemma X23_template_fails_witness :
  printf_template
    [("message", JStr "lost"); ("level", JNum 3); ("timestamp", JStr "2024-05-01 10:00:00")]
  = None.
Proof.
  apply X23_template_fails_without_level.
  intros lvl H. cbn in H. discriminate H.
Defined.

End FileFormatCoverage.
